(** * iconshop: the 3D viewer wrapper and the page component that drives it

    A shallow embedding of [ThreeViewer] and [WebglViewerComponent]
    (both revisions of webgl-viewer.component.ts) and of the routing table,
    together with the properties of the viewer lifecycle: load once and
    clone many, the fallback on a failed load, the shared animation loop
    and the release of renderers and controls on teardown. *)

From Stdlib Require Import ZArith SpecFloat.
From stdpp Require Import base list gmap strings pretty.

Local Open Scope string_scope.
Local Open Scope list_scope.
Local Open Scope nat_scope.

(** ** JavaScript numbers *)

(** A JS [number] is an IEEE 754 binary64 value; arithmetic is the rounded
    arithmetic of that format. *)
Module Js.

Definition number : Type := spec_float.

Definition prec : Z := 53.
Definition emax : Z := 1024.

Definition add (a b : number) : number := SFadd prec emax a b.
Definition div (a b : number) : number := SFdiv prec emax a b.

(** An integer literal. *)
Definition of_Z (n : Z) : number := binary_normalize prec emax n 0 false.

(** A positive literal given by its 53-bit significand and exponent. *)
Definition lit (m : positive) (e : Z) : number := S754_finite false m e.

Definition zero : number := S754_zero false.
Definition one : number := Eval cbv in of_Z 1.
Definition two : number := Eval cbv in of_Z 2.

(** [0.007 = 0x1.cac083126e979p-8] *)
Definition n0_007 : number := lit 0x1cac083126e979 (-60).
(** [0.8 = 0x1.999999999999ap-1] *)
Definition n0_8 : number := lit 0x1999999999999a (-53).
(** [0.05 = 0x1.999999999999ap-5] *)
Definition n0_05 : number := lit 0x1999999999999a (-57).
(** [0.1 = 0x1.999999999999ap-4] *)
Definition n0_1 : number := lit 0x1999999999999a (-56).
(** [2.5 = 0x1.4p+1] and [7.5 = 0x1.ep+2] *)
Definition n2_5 : number := lit 0x14000000000000 (-51).
Definition n7_5 : number := lit 0x1e000000000000 (-50).

End Js.

Abbreviation number := Js.number.

(** ** The 3D library, as far as the program uses it *)

(** Objects are named by their index in the store that holds them. *)
Abbreviation loc := nat.

Record Vector3 := V3 { vx : number; vy : number; vz : number }.

Definition v3_zero : Vector3 := V3 Js.zero Js.zero Js.zero.
Definition v3_one : Vector3 := V3 Js.one Js.one Js.one.

Inductive Geometry := BoxGeometry (w h d : number).
Inductive Material := MeshNormalMaterial.

(** What an object is. The descendants of a loaded asset are never touched
    by the program; they are part of the asset named by [GltfScene]. *)
Inductive ObjectKind :=
  | GltfScene (src : string)
  | Mesh (g : Geometry) (m : Material)
  | AmbientLight (color : Z) (intensity : number)
  | DirectionalLight (color : Z) (intensity : number).

(** An [Object3D] other than a scene: its transform and the scene that
    holds it ([parent] is [null] for an object in no scene). *)
Record Object3D := mkObject {
  kind : ObjectKind;
  position : Vector3;
  rotation : Vector3;
  scale : Vector3;
  parent : option nat
}.

Record Scene := mkScene {
  background : option Z;
  children : list loc
}.

Record PerspectiveCamera := mkCamera {
  fov : number;
  aspect : number;
  near : number;
  far : number;
  camera_z : number
}.

(** A renderer owns a drawing context until it is disposed; its canvas
    ([domElement]) sits under [canvas_parent] while attached to the page. *)
Record WebGLRenderer := mkRenderer {
  antialias : bool;
  size : Z * Z;
  canvas_parent : option nat;
  renderer_disposed : bool
}.

Record OrbitControls := mkControls {
  oc_camera : nat;
  oc_renderer : nat;
  enableDamping : bool;
  dampingFactor : number;
  oc_target : Vector3;
  controls_disposed : bool
}.

(** Calls that leave the program: the console, the loader, the browser's
    frame scheduler, the renderers and controls, change detection. *)
Inductive Event :=
  | EvConsoleError (msg : string)
  | EvConsoleWarn (msg : string)
  | EvLoad (path : string)
  | EvRequestAnimationFrame (id : nat)
  | EvCancelAnimationFrame (id : nat)
  | EvControlsUpdate (c : nat)
  | EvRender (r : nat) (scene : option nat) (camera : option nat)
  | EvControlsDispose (c : nat)
  | EvRendererDispose (r : nat)
  | EvMarkForCheck
  | EvAddResizeListener
  | EvRemoveResizeListener.

(** Everything outside the component: the object stores, the browser's
    pending animation frames and resize listener, and the calls made. *)
Record World := mkWorld {
  objects : list Object3D;
  scenes : list Scene;
  cameras : list PerspectiveCamera;
  renderers : list WebGLRenderer;
  orbits : list OrbitControls;
  pending_frames : list nat;
  last_frame : nat;
  resize_listening : bool;
  trace : list Event
}.

Definition empty_world : World := mkWorld [] [] [] [] [] [] 0 false [].

Definition set_objects (f : list Object3D → list Object3D) (w : World) : World :=
  mkWorld (f (objects w)) (scenes w) (cameras w) (renderers w) (orbits w)
          (pending_frames w) (last_frame w) (resize_listening w) (trace w).
Definition set_scenes (f : list Scene → list Scene) (w : World) : World :=
  mkWorld (objects w) (f (scenes w)) (cameras w) (renderers w) (orbits w)
          (pending_frames w) (last_frame w) (resize_listening w) (trace w).
Definition set_cameras (f : list PerspectiveCamera → list PerspectiveCamera) (w : World) : World :=
  mkWorld (objects w) (scenes w) (f (cameras w)) (renderers w) (orbits w)
          (pending_frames w) (last_frame w) (resize_listening w) (trace w).
Definition set_renderers (f : list WebGLRenderer → list WebGLRenderer) (w : World) : World :=
  mkWorld (objects w) (scenes w) (cameras w) (f (renderers w)) (orbits w)
          (pending_frames w) (last_frame w) (resize_listening w) (trace w).
Definition set_orbits (f : list OrbitControls → list OrbitControls) (w : World) : World :=
  mkWorld (objects w) (scenes w) (cameras w) (renderers w) (f (orbits w))
          (pending_frames w) (last_frame w) (resize_listening w) (trace w).
Definition set_frames (f : list nat → list nat) (w : World) : World :=
  mkWorld (objects w) (scenes w) (cameras w) (renderers w) (orbits w)
          (f (pending_frames w)) (last_frame w) (resize_listening w) (trace w).
Definition set_last_frame (n : nat) (w : World) : World :=
  mkWorld (objects w) (scenes w) (cameras w) (renderers w) (orbits w)
          (pending_frames w) n (resize_listening w) (trace w).
Definition set_listening (b : bool) (w : World) : World :=
  mkWorld (objects w) (scenes w) (cameras w) (renderers w) (orbits w)
          (pending_frames w) (last_frame w) b (trace w).
Definition emit (e : Event) (w : World) : World :=
  mkWorld (objects w) (scenes w) (cameras w) (renderers w) (orbits w)
          (pending_frames w) (last_frame w) (resize_listening w) (trace w ++ [e]).

(** *** Allocation: a new object gets the next free index of its store *)

Definition new_object (o : Object3D) (w : World) : loc * World :=
  (length (objects w), set_objects (λ os, os ++ [o]) w).
Definition new_scene (s : Scene) (w : World) : nat * World :=
  (length (scenes w), set_scenes (λ ss, ss ++ [s]) w).
Definition new_camera (c : PerspectiveCamera) (w : World) : nat * World :=
  (length (cameras w), set_cameras (λ cs, cs ++ [c]) w).
Definition new_renderer (r : WebGLRenderer) (w : World) : nat * World :=
  (length (renderers w), set_renderers (λ rs, rs ++ [r]) w).
Definition new_controls (c : OrbitControls) (w : World) : nat * World :=
  (length (orbits w), set_orbits (λ cs, cs ++ [c]) w).

(** *** Object3D operations *)

Definition with_position (p : Vector3) (o : Object3D) : Object3D :=
  mkObject (kind o) p (rotation o) (scale o) (parent o).
Definition with_scale (s : Vector3) (o : Object3D) : Object3D :=
  mkObject (kind o) (position o) (rotation o) s (parent o).
Definition with_parent (p : option nat) (o : Object3D) : Object3D :=
  mkObject (kind o) (position o) (rotation o) (scale o) p.
Definition with_rotation (r : Vector3) (o : Object3D) : Object3D :=
  mkObject (kind o) (position o) r (scale o) (parent o).

(** [Object3D.clone()]: a new object with the source's kind and transform
    and no parent; the source is only read. *)
Definition clone_of (o : Object3D) : Object3D :=
  mkObject (kind o) (position o) (rotation o) (scale o) None.

(** [scene.add(object)]: the object leaves the scene it was in, if any,
    then becomes the last child of [s]. *)
Definition remove_from_parent (l : loc) (w : World) : World :=
  match objects w !! l with
  | Some o =>
      match parent o with
      | Some p =>
          set_objects (alter (with_parent None) l)
            (set_scenes (alter (λ sc, mkScene (background sc)
                                        (filter (λ c, c ≠ l) (children sc))) p) w)
      | None => w
      end
  | None => w
  end.

Definition scene_add (s : nat) (l : loc) (w : World) : World :=
  let w1 := remove_from_parent l w in
  set_objects (alter (with_parent (Some s)) l)
    (set_scenes (alter (λ sc, mkScene (background sc) (children sc ++ [l])) s) w1).

(** ** Effects: a state monad with exceptions *)

Inductive Exn :=
  | TypeError (msg : string)
  | Error (msg : string).

Inductive Result (A : Type) :=
  | Ok (a : A)
  | Throw (e : Exn).
Arguments Ok {A} a.
Arguments Throw {A} e.

(** A computation over a state [St]; the state reached when an exception
    is thrown is kept, as the mutations made before a [throw] are. *)
Definition M (St A : Type) : Type := St → Result A * St.

Global Instance M_ret {St} : MRet (M St) := λ A a s, (Ok a, s).
Global Instance M_bind {St} : MBind (M St) := λ A B k c s,
  match c s with
  | (Ok a, s1) => k a s1
  | (Throw e, s1) => (Throw e, s1)
  end.

Definition throw {St A} (e : Exn) : M St A := λ s, (Throw e, s).
Definition modify {St} (f : St → St) : M St unit := λ s, (Ok tt, f s).
Definition gets {St A} (f : St → A) : M St A := λ s, (Ok (f s), s).
Definition alloc {St A} (f : St → A * St) : M St A := λ s, let '(a, s1) := f s in (Ok a, s1).

(** [array.forEach(f)] *)
Fixpoint forEach {St A} (f : A → M St unit) (l : list A) : M St unit :=
  match l with
  | [] => mret tt
  | a :: l' => f a;; forEach f l'
  end.

(** [array.map((x, index) => f)], the callback run on the elements in order *)
Fixpoint array_map_from {St A B} (i : nat) (f : A → nat → M St B) (l : list A) : M St (list B) :=
  match l with
  | [] => mret []
  | a :: l' => b ← f a i; bs ← array_map_from (S i) f l'; mret (b :: bs)
  end.
Definition array_map {St A B} (f : A → nat → M St B) (l : list A) : M St (list B) :=
  array_map_from 0 f l.

(** [Array.from({ length: n }, (_, i) => f)] *)
Definition Array_from {A} (n : nat) (f : nat → A) : list A := f <$> seq 0 n.

(** [Array.from(new Set(xs))]: the distinct elements, each at the place of
    its first occurrence. *)
Fixpoint set_insert_all {A} `{EqDecision A} (seen : list A) (xs : list A) : list A :=
  match xs with
  | [] => seen
  | x :: xs' => if decide (x ∈ seen) then set_insert_all seen xs'
                else set_insert_all (seen ++ [x]) xs'
  end.
Definition Array_from_Set {A} `{EqDecision A} (xs : list A) : list A := set_insert_all [] xs.

(** ** The page around the program *)

Record HTMLElement := mkElement {
  el_id : nat;
  clientWidth : Z;
  clientHeight : Z
}.

(** What the loader does with a path: it hands over the scene of the
    parsed file, or reports an error. *)
Inductive LoadOutcome :=
  | LoadOk (pos rot scl : Vector3)
  | LoadError (msg : string).

(** What a run finds around it: whether the imported names and [window]
    are defined (the program tests each with [typeof]), what the loader
    answers for each path, and the container elements of the template. *)
Record Env := mkEnv {
  THREE_defined : bool;
  GLTFLoader_defined : bool;
  OrbitControls_defined : bool;
  window_defined : bool;
  load_outcome : string → LoadOutcome;
  containers : list HTMLElement
}.

(** ** ModelConfig *)

(** The interface's [scale] and [pos] are [cfg_scale] and [cfg_pos] here,
    the plain names being those of [Object3D]. The single-asset revision
    has no [modelPath] and reads none. *)
Record ModelConfig := mkConfig {
  index : Z;
  displayName : string;
  offer : string;
  cfg_scale : Vector3;
  cfg_pos : Vector3;
  modelPath : string
}.

(** ** class ThreeViewer *)

(** The two revisions of the file: the one that shows several assets
    ([allModelConfigs], [loadModel]) and the one that shows a single asset
    ([modelData], [loadMasterModel]). [addModel] and [update] read the
    same in both. *)
Inductive Revision := MultiAsset | SingleAsset.

Record ThreeViewer := mkViewer {
  config : ModelConfig;
  container : HTMLElement;
  renderer : option nat;
  camera : option nat;
  scene : option nat;
  controls : option nat;
  model : option loc
}.

Definition with_model (m : option loc) (v : ThreeViewer) : ThreeViewer :=
  mkViewer (config v) (container v) (renderer v) (camera v) (scene v) (controls v) m.

Module ThreeViewer.

Definition constructor (rev : Revision) (env : Env)
    (config : ModelConfig) (container : HTMLElement) : M World ThreeViewer :=
  if negb (THREE_defined env) then
    modify (emit (EvConsoleError "THREE.js is not available in the global scope."));;
    match rev with
    | MultiAsset => throw (Error "Three.js not loaded.")
    | SingleAsset => mret (mkViewer config container None None None None None)
    end
  else
    let width := clientWidth container in
    let height := clientHeight container in
    (* 1. Scene, Camera, Renderer Setup *)
    scene ← alloc (new_scene (mkScene (Some 0xF3F3F3%Z) []));
    renderer ← alloc (new_renderer
                  (mkRenderer true (width, height) (Some (el_id container)) false));
    camera ← alloc (new_camera
                (mkCamera (Js.of_Z 75) (Js.div (Js.of_Z width) (Js.of_Z height))
                          Js.n0_1 (Js.of_Z 1000) Js.n2_5));
    (* 2. Controls *)
    controls ←
      (if OrbitControls_defined env then
         c ← alloc (new_controls (mkControls camera renderer true Js.n0_05 v3_zero false));
         mret (Some c)
       else mret None);
    (* 3. Lighting *)
    ambient ← alloc (new_object
                 (mkObject (AmbientLight 0xffffff Js.n0_8) v3_zero v3_zero v3_one None));
    modify (scene_add scene ambient);;
    directionalLight ← alloc (new_object
                 (mkObject (DirectionalLight 0xffffff Js.two)
                    (V3 (Js.of_Z 5) (Js.of_Z 10) Js.n7_5) v3_zero v3_one None));
    modify (scene_add scene directionalLight);;
    mret (mkViewer config container (Some renderer) (Some camera) (Some scene) controls None).

(** [loadedModel.clone()] *)
Definition clone (m : loc) : M World loc := λ w,
  match objects w !! m with
  | Some o => let '(c, w1) := new_object (clone_of o) w in (Ok c, w1)
  | None => (Throw (TypeError "loadedModel.clone is not a function"), w)
  end.

Definition addModel (this : ThreeViewer) (loadedModel : option loc) : M World ThreeViewer :=
  match loadedModel with
  | None => mret this
  | Some m =>
      c ← clone m;
      let this := with_model (Some c) this in
      (* Apply configuration *)
      modify (set_objects (alter (with_scale (cfg_scale (config this))) c));;
      modify (set_objects (alter (with_position (cfg_pos (config this))) c));;
      match scene this with
      | Some s => modify (scene_add s c);; mret this
      | None => throw (TypeError "Cannot read properties of undefined (reading 'add')")
      end
  end.

Definition rotate_y (o : Object3D) : Object3D :=
  with_rotation (V3 (vx (rotation o)) (Js.add (vy (rotation o)) Js.n0_007) (vz (rotation o))) o.

Definition update (this : ThreeViewer) : M World unit :=
  match controls this with
  | Some c => modify (emit (EvControlsUpdate c))
  | None => mret tt
  end;;
  (* Automatic Model Rotation *)
  match model this with
  | Some m => modify (set_objects (alter rotate_y m))
  | None => mret tt
  end;;
  match renderer this with
  | Some r => modify (emit (EvRender r (scene this) (camera this)))
  | None => throw (TypeError "Cannot read properties of undefined (reading 'render')")
  end.

Definition dispose_controls (o : OrbitControls) : OrbitControls :=
  mkControls (oc_camera o) (oc_renderer o) (enableDamping o) (dampingFactor o) (oc_target o) true.
Definition dispose_renderer (r : WebGLRenderer) : WebGLRenderer :=
  mkRenderer (antialias r) (size r) (canvas_parent r) true.
Definition detach_canvas (r : WebGLRenderer) : WebGLRenderer :=
  mkRenderer (antialias r) (size r) None (renderer_disposed r).

Definition dispose (rev : Revision) (this : ThreeViewer) : M World unit :=
  match controls this with
  | Some c => modify (set_orbits (alter dispose_controls c));;
              modify (emit (EvControlsDispose c))
  | None => mret tt
  end;;
  match renderer this with
  | Some r =>
      modify (set_renderers (alter dispose_renderer r));;
      modify (emit (EvRendererDispose r));;
      match rev with
      | MultiAsset => modify (set_renderers (alter detach_canvas r))
      | SingleAsset => mret tt
      end
  | None => mret tt
  end.

End ThreeViewer.

(** ** Promises, as far as the program awaits them *)

Inductive Promise (A : Type) :=
  | Resolved (a : A)
  | Rejected (e : Exn)
  | Pending.
Arguments Resolved {A} a.
Arguments Rejected {A} e.
Arguments Pending {A}.

(** [Promise.all]: rejected as soon as one of the promises is, resolved
    with all the values once every promise is resolved. *)
Fixpoint Promise_all {A} (ps : list (Promise A)) : Promise (list A) :=
  match ps with
  | [] => Resolved []
  | p :: ps' =>
      match p, Promise_all ps' with
      | Rejected e, _ => Rejected e
      | _, Rejected e => Rejected e
      | Pending, _ => Pending
      | _, Pending => Pending
      | Resolved a, Resolved l => Resolved (a :: l)
      end
  end.

(** A JS [Map] from paths to objects; a stored value may be [undefined]. *)
Definition Map_get (m : gmap string (option loc)) (k : string) : option loc :=
  match m !! k with
  | Some v => v
  | None => None
  end.

(** ** class WebglViewerComponent *)

Record Component := mkComponent {
  viewers : list ThreeViewer;
  animateId : nat;
  isLoaded : bool
}.

(** The field initialisers of the class *)
Definition new_component : Component := mkComponent [] 0 false.

Definition set_viewers (vs : list ThreeViewer) (c : Component) : Component :=
  mkComponent vs (animateId c) (isLoaded c).
Definition set_animateId (id : nat) (c : Component) : Component :=
  mkComponent (viewers c) id (isLoaded c).
Definition set_isLoaded (b : bool) (c : Component) : Component :=
  mkComponent (viewers c) (animateId c) b.

(** Methods of the component run over the component and the world. *)
Definition CS : Type := Component * World.

Definition world {A} (c : M World A) : M CS A := λ s,
  let '(r, w1) := c s.2 in (r, (s.1, w1)).
Definition this_modify (f : Component → Component) : M CS unit :=
  modify (λ s : CS, (f s.1, s.2)).
Definition this_get {A} (f : Component → A) : M CS A := gets (λ s : CS, f s.1).

(** [try { body } catch (error) { handler }] *)
Definition try_catch {St A} (body : M St A) (handler : Exn → M St A) : M St A := λ s,
  match body s with
  | (Ok a, s1) => (Ok a, s1)
  | (Throw e, s1) => handler e s1
  end.

Module WebglViewerComponent.

Definition GLB_MODEL_PATH_G : string := "/glbfiles/googlelogo.glb".
Definition GLB_MODEL_PATH_EDGE : string := "/glbfiles/edge.glb".
Definition GLB_MODEL_PATH_OPER : string := "/glbfiles/opera.glb".

(** The path of the single-asset revision *)
Definition GLB_MODEL_PATH : string := "/glbfiles/googlelogo.glb".

Definition allModelConfigs : list ModelConfig :=
  Array_from 6 (λ i, mkConfig (1 + Z.of_nat i)
      ("G logo " +:+ pretty (Z.of_nat i + 1)%Z)
      (pretty (30 - Z.of_nat i)%Z +:+ "% Discount")
      (V3 Js.two Js.two Js.two) v3_zero GLB_MODEL_PATH_G)
  ++ Array_from 6 (λ i, mkConfig (6 + Z.of_nat i)
      ("Edge logo " +:+ pretty (7 + Z.of_nat i)%Z)
      (pretty (10 + Z.of_nat i)%Z +:+ "% Off")
      (V3 Js.two Js.two Js.two) v3_zero GLB_MODEL_PATH_EDGE)
  ++ Array_from 4 (λ i, mkConfig (12 + Z.of_nat i)
      ("Opera " +:+ pretty (13 + Z.of_nat i)%Z)
      (pretty (10 + Z.of_nat i)%Z +:+ "% Off")
      (V3 Js.one Js.one Js.one) v3_zero GLB_MODEL_PATH_OPER).

(** The constructor's [afterNextRender] callback *)
Definition afterNextRender_callback (env : Env) : M World unit :=
  if window_defined env then
    modify (set_listening true);; modify (emit EvAddResizeListener)
  else mret tt.

(** The polling never ends while one of the names stays undefined. *)
Definition checkThreeJsLoaded (env : Env) : Promise unit :=
  if THREE_defined env && GLTFLoader_defined env && OrbitControls_defined env
  then Resolved tt else Pending.

Definition fallback_box (edge : Z) : Object3D :=
  mkObject (Mesh (BoxGeometry (Js.of_Z edge) (Js.of_Z edge) (Js.of_Z edge)) MeshNormalMaterial)
           v3_zero v3_zero v3_one None.

(** The promise made by the loading methods, once the loader has answered:
    [warn] is the console call of the error callback, [edge] the edge of
    the placeholder box. An exception in the executor rejects the promise;
    one in the error callback leaves it pending. *)
Definition load_promise (env : Env) (path : string)
    (warn : Event) (edge : Z) : World → Promise loc * World := λ w,
  if GLTFLoader_defined env then
    let w := emit (EvLoad path) w in
    match load_outcome env path with
    | LoadOk p r s =>
        let '(gltf_scene, w) := new_object (mkObject (GltfScene path) p r s None) w in
        (Resolved gltf_scene, w)
    | LoadError _ =>
        let w := emit warn w in
        (* Fallback: create a placeholder box *)
        if THREE_defined env then
          let '(fallbackMesh, w) := new_object (fallback_box edge) w in
          (Resolved fallbackMesh, w)
        else (Pending, w)
    end
  else (Rejected (TypeError "GLTFLoader is not a constructor"), w).

(** [loadModel(path)] of the multi-asset revision *)
Definition loadModel (env : Env) (path : string) : World → Promise loc * World :=
  load_promise env path (EvConsoleWarn ("Error loading GLB model at " +:+ path +:+ ":")) 1.

(** [loadMasterModel()] of the single-asset revision *)
Definition loadMasterModel (env : Env) : World → Promise loc * World :=
  load_promise env GLB_MODEL_PATH (EvConsoleError "Error loading GLB model:") 20.

(** [uniqueModelPaths.map(path => this.loadModel(path))] *)
Fixpoint load_each (env : Env) (paths : list string) (w : World)
    : list (Promise loc) * World :=
  match paths with
  | [] => ([], w)
  | path :: paths' =>
      let '(p, w1) := loadModel env path w in
      let '(ps, w2) := load_each env paths' w1 in
      (p :: ps, w2)
  end.

(** The browser hands out a new non-zero id and keeps the callback (always
    [this.animate]) until the frame fires or the request is cancelled. *)
Definition requestAnimationFrame : M World nat := λ w,
  let id := S (last_frame w) in
  (Ok id, emit (EvRequestAnimationFrame id)
            (set_frames (λ fs, fs ++ [id]) (set_last_frame id w))).

Definition cancelAnimationFrame (id : nat) : M World unit :=
  modify (set_frames (filter (λ f, f ≠ id)));;
  modify (emit (EvCancelAnimationFrame id)).

(** The single requestAnimationFrame loop driving all viewers' updates;
    it reads the same in both revisions. *)
Definition animate : M CS unit :=
  id ← world requestAnimationFrame;
  this_modify (set_animateId id);;
  vs ← this_get viewers;
  world (forEach ThreeViewer.update vs).

(** [uniqueModelPaths.forEach((path, index) => masterModels.set(path, loadedModels[index]))]
    on a new [Map] *)
Definition set_masterModels (uniqueModelPaths : list string) (loadedModels : list loc)
    : gmap string (option loc) :=
  foldl (λ masterModels ip, <[ip.2 := loadedModels !! ip.1]> masterModels) ∅
        (zip (seq 0 (length uniqueModelPaths)) uniqueModelPaths).

(** The callback of [this.allModelConfigs.map]. With no container at
    [index] the constructor would fail on [container.clientWidth]; the
    guard before the call rules that out. *)
Definition init_viewer (env : Env) (masterModels : gmap string (option loc))
    (containerElements : list HTMLElement) (config : ModelConfig) (index : nat)
    : M World ThreeViewer :=
  match containerElements !! index with
  | Some container =>
      let masterModel := Map_get masterModels (modelPath config) in
      viewer ← ThreeViewer.constructor MultiAsset env config container;
      (* Add the cloned model *)
      match masterModel with
      | Some _ => ThreeViewer.addModel viewer masterModel
      | None => mret viewer
      end
  | None => throw (TypeError "Cannot read properties of undefined (reading 'clientWidth')")
  end.

(** [ngAfterViewInit] of the multi-asset revision. The loads are started
    in the order of [uniqueModelPaths]; the loader's answers are taken in
    that order too. A wait on a promise that stays pending ends the run
    of the method there. *)
Definition ngAfterViewInit (env : Env) : M CS unit :=
  try_catch
    (* 1. Wait for Three.js to be fully loaded *)
    match checkThreeJsLoaded env with
    | Resolved _ =>
        (* 2. Map model paths to a Set of unique paths *)
        let uniqueModelPaths := Array_from_Set (modelPath <$> allModelConfigs) in
        (* 3. Load all unique master models *)
        modelPromises ← world (alloc (load_each env uniqueModelPaths));
        match Promise_all modelPromises with
        | Resolved loadedModels =>
            (* Map the loaded models back to their paths for quick access *)
            let masterModels := set_masterModels uniqueModelPaths loadedModels in
            let containerElements := containers env in
            (* Guard: Ensure we have enough containers for all configs *)
            if decide (length containerElements < length allModelConfigs) then
              world (modify (emit (EvConsoleError
                ("Missing " +:+ pretty (length allModelConfigs - length containerElements)
                 +:+ " DOM containers for models."))))
            else
              (* 4. Initialize all viewers using the loaded master models *)
              vs ← world (array_map (init_viewer env masterModels containerElements)
                                    allModelConfigs);
              this_modify (set_viewers vs);;
              (* 5. Start animation and update state *)
              this_modify (set_isLoaded true);;
              world (modify (emit EvMarkForCheck));;
              animate
        | Rejected e => throw e
        | Pending => mret tt
        end
    | Rejected e => throw e
    | Pending => mret tt
    end
    (λ error, world (modify (emit (EvConsoleError "Initialization failed:")))).

(** The browser runs the oldest pending frame callback, if there is one. *)
Definition run_frame : M CS unit := λ s,
  match pending_frames s.2 with
  | [] => (Ok tt, s)
  | _ :: rest => animate (s.1, set_frames (λ _, rest) s.2)
  end.

(** [ngOnDestroy]; the revisions differ in [ThreeViewer.dispose] only. *)
Definition ngOnDestroy (rev : Revision) (env : Env) : M CS unit :=
  animateId ← this_get animateId;
  (if decide (animateId ≠ 0) then world (cancelAnimationFrame animateId) else mret tt);;
  vs ← this_get viewers;
  world (forEach (ThreeViewer.dispose rev) vs);;
  if window_defined env then
    world (modify (set_listening false));; world (modify (emit EvRemoveResizeListener))
  else mret tt.

End WebglViewerComponent.

(** ** The routing table *)

Inductive RouteComponent := WebglViewerComponent | AboutUsComponent.

Record Route := mkRoute { path : string; component : RouteComponent }.

Definition routes : list Route :=
  [ mkRoute "" WebglViewerComponent;
    mkRoute "about-us" AboutUsComponent ].

(** ** Resizing *)

(** The size the page gives an element now: its [clientWidth] and
    [clientHeight], by [el_id]. The [HTMLElement] a viewer holds records
    the size the element had when the constructor read it. *)
Definition Layout : Type := nat → Z * Z.

Definition with_aspect (a : number) (c : PerspectiveCamera) : PerspectiveCamera :=
  mkCamera (fov c) a (near c) (far c) (camera_z c).
Definition with_size (sz : Z * Z) (r : WebGLRenderer) : WebGLRenderer :=
  mkRenderer (antialias r) sz (canvas_parent r) (renderer_disposed r).

(** [ThreeViewer.handleResize]. The single-asset revision returns at once
    when the camera or the renderer is missing (the container never is);
    the multi-asset revision has no such guard. The projection matrix that
    [updateProjectionMatrix] recomputes is derived from the fields kept
    here. *)
Definition handleResize (rev : Revision) (layout : Layout) (this : ThreeViewer)
    : M World unit :=
  let guarded :=
    match rev with
    | SingleAsset =>
        match camera this, renderer this with
        | Some _, Some _ => false
        | _, _ => true
        end
    | MultiAsset => false
    end in
  if guarded then mret tt
  else
    let width := (layout (el_id (container this))).1 in
    let height := (layout (el_id (container this))).2 in
    match camera this with
    | Some c =>
        modify (set_cameras
                  (alter (with_aspect (Js.div (Js.of_Z width) (Js.of_Z height))) c))
    | None => throw (TypeError "Cannot set properties of undefined (setting 'aspect')")
    end;;
    match renderer this with
    | Some r => modify (set_renderers (alter (with_size (width, height)) r))
    | None => throw (TypeError "Cannot read properties of undefined (reading 'setSize')")
    end.

(** [WebglViewerComponent.onResize], the listener of the window's resize
    event *)
Definition onResize (rev : Revision) (layout : Layout) : M CS unit :=
  vs ← this_get viewers;
  world (forEach (handleResize rev layout) vs).

(** ** Waiting for the imported names *)

(** The [check] closure of [checkThreeJsLoaded], whose [k]-th run finds
    the environment [envs k]: it resolves the promise when the three names
    are defined and otherwise runs again 50 ms later. The result is the
    number of the run that resolved; [None] when [fuel] further runs were
    not enough. *)
Fixpoint check (envs : nat → Env) (fuel k : nat) : option nat :=
  if THREE_defined (envs k) && GLTFLoader_defined (envs k)
     && OrbitControls_defined (envs k)
  then Some k
  else match fuel with
       | 0 => None
       | S fuel' => check envs fuel' (S k)
       end.

(** The time waited when the [k]-th run resolves, in milliseconds *)
Definition waited_ms (k : nat) : nat := 50 * k.

(** ** The component of the single-asset revision *)

Module SingleAssetComponent.

(** The interface of this revision has no [modelPath]; the field holds the
    one path the revision loads and is never read. *)
Definition modelData : list ModelConfig :=
  Array_from 15 (λ i, mkConfig (Z.of_nat i)
      ("G logo " +:+ pretty (Z.of_nat i + 1)%Z)
      (pretty (30 - Z.of_nat i)%Z +:+ "% Discount")
      (V3 Js.two Js.two Js.two) v3_zero WebglViewerComponent.GLB_MODEL_PATH).

(** The callback of [this.modelData.map] *)
Definition init_viewer (env : Env) (loadedModel : loc)
    (rendererContainers : list HTMLElement) (config : ModelConfig) (index : nat)
    : M World ThreeViewer :=
  match rendererContainers !! index with
  | Some container =>
      viewer ← ThreeViewer.constructor SingleAsset env config container;
      (* Pass the single loaded model to be cloned *)
      ThreeViewer.addModel viewer (Some loadedModel)
  | None =>
      throw (TypeError "Cannot read properties of undefined (reading 'nativeElement')")
  end.

(** [ngAfterViewInit]: two [then] callbacks and no [catch]; an exception
    in a callback is the result [Throw] here, and nothing runs after it. *)
Definition ngAfterViewInit (env : Env) : M CS unit :=
  match WebglViewerComponent.checkThreeJsLoaded env with
  | Resolved _ =>
      if decide (length (containers env) = 0) then mret tt
      else
        loaded ← world (alloc (WebglViewerComponent.loadMasterModel env));
        match loaded with
        | Resolved loadedModel =>
            (* Initialize all viewers only after the model is loaded *)
            vs ← world (array_map (init_viewer env loadedModel (containers env)) modelData);
            this_modify (set_viewers vs);;
            this_modify (set_isLoaded true);;
            world (modify (emit EvMarkForCheck));;
            WebglViewerComponent.animate
        | Rejected e => throw e
        | Pending => mret tt
        end
  | Rejected e => throw e
  | Pending => mret tt
  end.

End SingleAssetComponent.

(** ** What the statements below speak of *)

(** The objects a [ThreeViewer] constructor creates *)
Definition ambient_light (s : nat) : Object3D :=
  mkObject (AmbientLight 0xffffff Js.n0_8) v3_zero v3_zero v3_one (Some s).
Definition directional_light (s : nat) : Object3D :=
  mkObject (DirectionalLight 0xffffff Js.two)
           (V3 (Js.of_Z 5) (Js.of_Z 10) Js.n7_5) v3_zero v3_one (Some s).
Definition fresh_renderer (el : HTMLElement) : WebGLRenderer :=
  mkRenderer true (clientWidth el, clientHeight el) (Some (el_id el)) false.
Definition fresh_camera (el : HTMLElement) : PerspectiveCamera :=
  mkCamera (Js.of_Z 75) (Js.div (Js.of_Z (clientWidth el)) (Js.of_Z (clientHeight el)))
           Js.n0_1 (Js.of_Z 1000) Js.n2_5.
Definition fresh_controls (env : Env) (cam r : nat) : list OrbitControls :=
  if OrbitControls_defined env then [mkControls cam r true Js.n0_05 v3_zero false] else [].


(** The object a viewer shows for a master [o]: a copy of [o] with the
    scale and position of the viewer's configuration, held by its scene. *)
Definition shown_clone (this : ThreeViewer) (o : Object3D) (s : nat) : Object3D :=
  mkObject (kind o) (cfg_pos (config this)) (rotation o) (cfg_scale (config this)) (Some s).


(** The calls one [update] of a viewer makes *)
Definition tick_calls (v : ThreeViewer) : list Event :=
  match controls v with Some c => [EvControlsUpdate c] | None => [] end
  ++ match renderer v with Some r => [EvRender r (scene v) (camera v)] | None => [] end.

(** The object store after one [update] of a viewer *)
Definition ticked (v : ThreeViewer) (os : list Object3D) : list Object3D :=
  match model v with
  | Some m => alter ThreeViewer.rotate_y m os
  | None => os
  end.

(** The object store after one [update] of each viewer, in order *)
Definition ticks (vs : list ThreeViewer) (os : list Object3D) : list Object3D :=
  foldl (λ os v, ticked v os) os vs.

Definition has_renderer (v : ThreeViewer) : Prop := is_Some (renderer v).

(** What a load adds to the object store, and the calls it makes *)
Definition loaded_object (env : Env) (edge : Z) (path : string) : Object3D :=
  match load_outcome env path with
  | LoadOk p r s => mkObject (GltfScene path) p r s None
  | LoadError _ => WebglViewerComponent.fallback_box edge
  end.

Definition load_calls (env : Env) (warn : Event) (path : string) : list Event :=
  EvLoad path ::
  match load_outcome env path with
  | LoadOk _ _ _ => []
  | LoadError _ => [warn]
  end.

Definition loadModel_warn (path : string) : Event :=
  EvConsoleWarn ("Error loading GLB model at " +:+ path +:+ ":").

(** The paths [ngAfterViewInit] loads, the masters the loads put in the
    store, and the map it makes of them when the store held [n] objects *)
Definition uniqueModelPaths : list string :=
  Array_from_Set (modelPath <$> WebglViewerComponent.allModelConfigs).

Definition masters (env : Env) : list Object3D :=
  loaded_object env 1 <$> uniqueModelPaths.

Definition masterModels_at (n : nat) : gmap string (option loc) :=
  WebglViewerComponent.set_masterModels uniqueModelPaths
    (seq n (length uniqueModelPaths)).

Definition load_trace (env : Env) : list Event :=
  flat_map (λ p, load_calls env (loadModel_warn p) p) uniqueModelPaths.

Definition is_frame_request (e : Event) : bool :=
  match e with EvRequestAnimationFrame _ => true | _ => false end.

Definition is_load (e : Event) : bool :=
  match e with EvLoad _ => true | _ => false end.

Definition missing_containers (env : Env) : Event :=
  EvConsoleError
    ("Missing " +:+ pretty (length WebglViewerComponent.allModelConfigs
                            - length (containers env))
     +:+ " DOM containers for models.").

(** The stores and the calls of one [dispose] of a viewer *)
Definition released_renderers (rev : Revision) (v : ThreeViewer)
    (rs : list WebGLRenderer) : list WebGLRenderer :=
  match renderer v with
  | Some r =>
      match rev with
      | MultiAsset => alter ThreeViewer.detach_canvas r (alter ThreeViewer.dispose_renderer r rs)
      | SingleAsset => alter ThreeViewer.dispose_renderer r rs
      end
  | None => rs
  end.

Definition released_controls (v : ThreeViewer) (ocs : list OrbitControls)
    : list OrbitControls :=
  match controls v with
  | Some c => alter ThreeViewer.dispose_controls c ocs
  | None => ocs
  end.

Definition dispose_calls (v : ThreeViewer) : list Event :=
  match controls v with Some c => [EvControlsDispose c] | None => [] end
  ++ match renderer v with Some r => [EvRendererDispose r] | None => [] end.

(** A renderer that holds no drawing context any more; in the multi-asset
    revision its canvas has left the page too. *)
Definition released (rev : Revision) (x : WebGLRenderer) : Prop :=
  renderer_disposed x = true ∧ (rev = MultiAsset → canvas_parent x = None).

Definition is_render (e : Event) : bool :=
  match e with EvRender _ _ _ => true | _ => false end.

(** The life of the page: the component is made on an empty world, its
    [afterNextRender] callback and [ngAfterViewInit] run, the browser
    fires [n] frames, and [ngOnDestroy] of the multi-asset revision ends
    it. *)
Definition page_opened (env : Env) : CS :=
  (WebglViewerComponent.ngAfterViewInit env
     (new_component, (WebglViewerComponent.afterNextRender_callback env empty_world).2)).2.

(** The browser fires [n] animation frames one after the other. *)
Definition run_frames (n : nat) (s : CS) : CS :=
  Nat.iter n (λ s, (WebglViewerComponent.run_frame s).2) s.

Definition page_running (env : Env) (n : nat) : CS := run_frames n (page_opened env).

Definition page_closed (env : Env) (n : nat) : CS :=
  (WebglViewerComponent.ngOnDestroy MultiAsset env (page_running env n)).2.

(** The component owns every renderer and every controls object of the
    world, and at most one animation frame is pending: the one it asked
    for last. *)
Definition owns_world (s : CS) : Prop :=
  renderer <$> viewers s.1 = Some <$> seq 0 (length (renderers s.2)) ∧
  (∀ c, c < length (orbits s.2) → Some c ∈ controls <$> viewers s.1) ∧
  (pending_frames s.2 = [] ∨
   pending_frames s.2 = [animateId s.1] ∧ animateId s.1 ≠ 0).

(** The viewer [init_viewer] returns when the stores hold [no] objects,
    [ns] scenes, [nc] cameras, [nr] renderers and [noc] controls *)
Definition built_viewer (env : Env) (cfg : ModelConfig) (el : HTMLElement)
    (no ns nc nr noc : nat) : ThreeViewer :=
  mkViewer cfg el (Some nr) (Some nc) (Some ns)
           (if OrbitControls_defined env then Some noc else None) (Some (no + 2)).

(** What holds of a viewer built from the masters in [os0] once the
    object store has grown from [os] to [os']: it shows a new object, a
    copy of the master that [masterModels] binds to its path. *)
Definition shows_clone (mm : gmap string (option loc)) (os0 os os' : list Object3D)
    (v : ThreeViewer) : Prop :=
  ∃ c m o s,
    model v = Some c ∧ length os ≤ c ∧ scene v = Some s ∧
    Map_get mm (modelPath (config v)) = Some m ∧ os0 !! m = Some o ∧
    os' !! c = Some (shown_clone v o s).

(** The loop runs: the component is loaded and the one pending frame is
    the one it asked for last; [n] frames have fired since it started. *)
Definition loop_running (n : nat) (s : CS) : Prop :=
  isLoaded s.1 = true ∧
  length (viewers s.1) = length WebglViewerComponent.allModelConfigs ∧
  Forall has_renderer (viewers s.1) ∧
  pending_frames s.2 = [animateId s.1] ∧
  length (filter is_frame_request (trace s.2)) = S n ∧
  length (filter is_render (trace s.2)) = S n * length (viewers s.1).

(** ** A small page to try the statements on *)

(** All names defined, sixteen containers of 300 by 200, and a loader that
    fails on the Edge logo only *)
Definition demo_env : Env :=
  mkEnv true true true true
        (λ p, if decide (p = WebglViewerComponent.GLB_MODEL_PATH_EDGE)
              then LoadError "404" else LoadOk v3_zero v3_zero v3_one)
        ((λ i, mkElement i 300 200) <$> seq 0 16).

Definition demo_config : ModelConfig :=
  mkConfig 1 "G logo 1" "30% Discount" (V3 Js.two Js.two Js.two) v3_zero
           WebglViewerComponent.GLB_MODEL_PATH_G.

Definition demo_element : HTMLElement := mkElement 0 300 200.

Definition demo_master : Object3D :=
  mkObject (GltfScene WebglViewerComponent.GLB_MODEL_PATH_G) v3_zero v3_zero v3_one None.

(** One viewer showing object 1, a clone of the master at 0 *)
Definition demo_viewer : ThreeViewer :=
  mkViewer demo_config demo_element (Some 0) (Some 0) (Some 0) (Some 0) (Some 1).

Definition demo_world : World :=
  mkWorld [demo_master; shown_clone demo_viewer demo_master 0]
          [mkScene (Some 0xF3F3F3%Z) [1]]
          [fresh_camera demo_element] [fresh_renderer demo_element]
          [mkControls 0 0 true Js.n0_05 v3_zero false]
          [1] 1 true [].

Definition demo_component : Component := mkComponent [demo_viewer] 1 true.

(** The stores after one [handleResize] of a viewer that has its camera
    and renderer *)
Definition resized_cameras (layout : Layout) (cs : list PerspectiveCamera)
    (v : ThreeViewer) : list PerspectiveCamera :=
  match camera v with
  | Some c =>
      alter (with_aspect (Js.div (Js.of_Z (layout (el_id (container v))).1)
                                 (Js.of_Z (layout (el_id (container v))).2))) c cs
  | None => cs
  end.

Definition resized_renderers (layout : Layout) (rs : list WebGLRenderer)
    (v : ThreeViewer) : list WebGLRenderer :=
  match renderer v with
  | Some r => alter (with_size ((layout (el_id (container v))).1,
                                (layout (el_id (container v))).2)) r rs
  | None => rs
  end.

Definition has_camera_and_renderer (v : ThreeViewer) : Prop :=
  is_Some (camera v) ∧ is_Some (renderer v).

(** The master of the single-asset revision and the calls of its load *)
Definition single_master (env : Env) : Object3D :=
  loaded_object env 20 WebglViewerComponent.GLB_MODEL_PATH.

Definition single_load_trace (env : Env) : list Event :=
  load_calls env (EvConsoleError "Error loading GLB model:")
             WebglViewerComponent.GLB_MODEL_PATH.

(** A renderer that still holds its drawing context and whose canvas is
    on the page *)
Definition live (x : WebGLRenderer) : Prop :=
  renderer_disposed x = false ∧ is_Some (canvas_parent x).

(** The master the multi-asset revision binds to a configuration, when
    the map of masters is [mm] and the store held [os0] after the loads *)
Definition master_of (mm : gmap string (option loc)) (os0 : list Object3D)
    (cfg : ModelConfig) : option (loc * Object3D) :=
  match Map_get mm (modelPath cfg) with
  | Some m => (λ o, (m, o)) <$> os0 !! m
  | None => None
  end.

(** The three imported names are defined. *)
Definition names_ready (env : Env) : Prop :=
  WebglViewerComponent.checkThreeJsLoaded env = Resolved tt.

(** * Properties *)

(** ** Store lemmas *)

Lemma alter_snoc {A} (f : A → A) (l : list A) (x : A) :
  alter f (length l) (l ++ [x]) = l ++ [f x].
Proof.
  induction l as [|a l IH]; [done|].
  change (alter f (length (a :: l)) ((a :: l) ++ [x]))
    with (a :: alter f (length l) (l ++ [x])).
  by rewrite IH.
Qed.

Lemma lookup_snoc {A} (l : list A) (x : A) : (l ++ [x]) !! length l = Some x.
Proof. induction l; simpl; auto. Qed.

(** Adding an object that is in no scene only touches that object and the
    receiving scene. *)
Lemma scene_add_fresh s x os ss cs rs ocs pf lf rl tr :
  parent x = None →
  scene_add s (length os) (mkWorld (os ++ [x]) ss cs rs ocs pf lf rl tr) =
  mkWorld (os ++ [with_parent (Some s) x])
          (alter (λ sc, mkScene (background sc) (children sc ++ [length os])) s ss)
          cs rs ocs pf lf rl tr.
Proof.
  intros Hp. unfold scene_add, remove_from_parent. simpl.
  rewrite lookup_snoc, Hp. unfold set_objects, set_scenes. simpl.
  by rewrite alter_snoc.
Qed.

Local Arguments scene_add : simpl never.
Local Arguments Js.of_Z : simpl never.
Local Arguments Js.add : simpl never.
Local Arguments Js.div : simpl never.

(** *** Stepping a computation applied to a state *)

Lemma bind_ret {St A B} (a : A) (k : A → M St B) (s : St) :
  (mret a ≫= k) s = k a s.
Proof. reflexivity. Qed.

Lemma bind_modify {St B} (f : St → St) (k : unit → M St B) (s : St) :
  (modify f ≫= k) s = k tt (f s).
Proof. reflexivity. Qed.

Lemma bind_alloc {St A B} (f : St → A * St) (k : A → M St B) (s : St) :
  (alloc f ≫= k) s = k (f s).1 (f s).2.
Proof. unfold mbind, M_bind, alloc. by destruct (f s). Qed.

Lemma bind_gets {St A B} (f : St → A) (k : A → M St B) (s : St) :
  (gets f ≫= k) s = k (f s) s.
Proof. reflexivity. Qed.

Lemma bind_throw {St A B} (e : Exn) (k : A → M St B) (s : St) :
  (throw e ≫= k) s = (Throw e, s).
Proof. reflexivity. Qed.

Lemma bind_assoc {St A B C} (c : M St A) (k : A → M St B) (h : B → M St C) (s : St) :
  ((c ≫= k) ≫= h) s = (c ≫= λ a, k a ≫= h) s.
Proof. unfold mbind, M_bind. by destruct (c s) as [[a|e] s1]. Qed.

Lemma bind_ok {St A B} (c : M St A) (k : A → M St B) (s s1 : St) (a : A) :
  c s = (Ok a, s1) → (c ≫= k) s = k a s1.
Proof. unfold mbind, M_bind. by intros ->. Qed.

(** The store operations on an explicit world *)
Section explicit_world.
Context (os : list Object3D) (ss : list Scene) (cs : list PerspectiveCamera)
        (rs : list WebGLRenderer) (ocs : list OrbitControls)
        (pf : list nat) (lf : nat) (rl : bool) (tr : list Event).
Let w := mkWorld os ss cs rs ocs pf lf rl tr.

Lemma set_objects_mk f : set_objects f w = mkWorld (f os) ss cs rs ocs pf lf rl tr.
Proof. reflexivity. Qed.
Lemma set_scenes_mk f : set_scenes f w = mkWorld os (f ss) cs rs ocs pf lf rl tr.
Proof. reflexivity. Qed.
Lemma set_cameras_mk f : set_cameras f w = mkWorld os ss (f cs) rs ocs pf lf rl tr.
Proof. reflexivity. Qed.
Lemma set_renderers_mk f : set_renderers f w = mkWorld os ss cs (f rs) ocs pf lf rl tr.
Proof. reflexivity. Qed.
Lemma set_orbits_mk f : set_orbits f w = mkWorld os ss cs rs (f ocs) pf lf rl tr.
Proof. reflexivity. Qed.
Lemma set_frames_mk f : set_frames f w = mkWorld os ss cs rs ocs (f pf) lf rl tr.
Proof. reflexivity. Qed.
Lemma set_last_frame_mk n : set_last_frame n w = mkWorld os ss cs rs ocs pf n rl tr.
Proof. reflexivity. Qed.
Lemma set_listening_mk b : set_listening b w = mkWorld os ss cs rs ocs pf lf b tr.
Proof. reflexivity. Qed.
Lemma emit_mk e : emit e w = mkWorld os ss cs rs ocs pf lf rl (tr ++ [e]).
Proof. reflexivity. Qed.
Lemma new_object_mk o :
  new_object o w = (length os, mkWorld (os ++ [o]) ss cs rs ocs pf lf rl tr).
Proof. reflexivity. Qed.
Lemma new_scene_mk x :
  new_scene x w = (length ss, mkWorld os (ss ++ [x]) cs rs ocs pf lf rl tr).
Proof. reflexivity. Qed.
Lemma new_camera_mk x :
  new_camera x w = (length cs, mkWorld os ss (cs ++ [x]) rs ocs pf lf rl tr).
Proof. reflexivity. Qed.
Lemma new_renderer_mk x :
  new_renderer x w = (length rs, mkWorld os ss cs (rs ++ [x]) ocs pf lf rl tr).
Proof. reflexivity. Qed.
Lemma new_controls_mk x :
  new_controls x w = (length ocs, mkWorld os ss cs rs (ocs ++ [x]) pf lf rl tr).
Proof. reflexivity. Qed.

End explicit_world.

Create Rewrite HintDb world.
#[local] Hint Rewrite set_objects_mk set_scenes_mk set_cameras_mk set_renderers_mk
  set_orbits_mk set_frames_mk set_last_frame_mk set_listening_mk emit_mk
  new_object_mk new_scene_mk new_camera_mk new_renderer_mk new_controls_mk : world.

Ltac wsimpl := autorewrite with world; cbn [fst snd].

Lemma run_modify {St} (f : St → St) (s : St) : modify f s = (Ok tt, f s).
Proof. reflexivity. Qed.
Lemma run_ret {St A} (a : A) (s : St) : mret (M := M St) a s = (Ok a, s).
Proof. reflexivity. Qed.
Lemma run_throw {St A} (e : Exn) (s : St) : throw (A := A) e s = (Throw e, s).
Proof. reflexivity. Qed.

Ltac step :=
  first [ rewrite bind_assoc | rewrite bind_ret | rewrite bind_modify
        | rewrite bind_alloc | rewrite bind_gets | rewrite bind_throw
        | rewrite run_modify | rewrite run_ret | rewrite run_throw ];
  wsimpl.

(** ** ThreeViewer *)

Section viewer.
Import ThreeViewer.

(** With [THREE] defined the constructor of either revision only appends:
    one scene holding the two lights, one renderer, one camera and, with
    [OrbitControls] defined, one controls object. *)
Lemma constructor_spec rev env cfg el os ss cs rs ocs pf lf rl tr :
  THREE_defined env = true →
  constructor rev env cfg el (mkWorld os ss cs rs ocs pf lf rl tr) =
  (Ok (mkViewer cfg el (Some (length rs)) (Some (length cs)) (Some (length ss))
         (if OrbitControls_defined env then Some (length ocs) else None) None),
   mkWorld (os ++ [ambient_light (length ss); directional_light (length ss)])
           (ss ++ [mkScene (Some 0xF3F3F3%Z) [length os; S (length os)]])
           (cs ++ [fresh_camera el]) (rs ++ [fresh_renderer el])
           (ocs ++ fresh_controls env (length cs) (length rs)) pf lf rl tr).
Proof.
  intros H3. unfold constructor, fresh_controls. rewrite H3.
  cbn [negb].
  do 3 step.
  destruct (OrbitControls_defined env).
  all: repeat (step; try rewrite scene_add_fresh, alter_snoc by done).
  all: rewrite <- !app_assoc, ?app_nil_r, length_app, Nat.add_1_r.
  all: reflexivity.
Qed.

Lemma clone_spec m o os ss cs rs ocs pf lf rl tr :
  os !! m = Some o →
  clone m (mkWorld os ss cs rs ocs pf lf rl tr) =
  (Ok (length os), mkWorld (os ++ [clone_of o]) ss cs rs ocs pf lf rl tr).
Proof. intros Hm. unfold clone. cbn [objects]. by rewrite Hm. Qed.

Lemma addModel_spec this m o s os ss cs rs ocs pf lf rl tr :
  scene this = Some s →
  os !! m = Some o →
  addModel this (Some m) (mkWorld os ss cs rs ocs pf lf rl tr) =
  (Ok (with_model (Some (length os)) this),
   mkWorld (os ++ [shown_clone this o s])
           (alter (λ sc, mkScene (background sc) (children sc ++ [length os])) s ss)
           cs rs ocs pf lf rl tr).
Proof.
  intros Hs Hm. unfold addModel.
  rewrite (bind_ok _ _ _ _ _ (clone_spec _ _ _ _ _ _ _ _ _ _ _ Hm)).
  do 2 (step; rewrite alter_snoc).
  cbn [scene with_model config]. rewrite Hs.
  step. rewrite scene_add_fresh by done. reflexivity.
Qed.

(** [C8] Calling [addModel] with [null] or [undefined] does nothing: the
    viewer (its [model] field included) and the world (its scenes
    included) are returned as they were. *)
Theorem addModel_null_is_noop (this : ThreeViewer) (w : World) :
  addModel this None w = (Ok this, w).
Proof. reflexivity. Qed.




Lemma ticks_cons v vs os : ticks (v :: vs) os = ticks vs (ticked v os).
Proof. reflexivity. Qed.

Lemma update_spec this os ss cs rs ocs pf lf rl tr :
  update this (mkWorld os ss cs rs ocs pf lf rl tr) =
  (match renderer this with
   | Some _ => Ok tt
   | None => Throw (TypeError "Cannot read properties of undefined (reading 'render')")
   end,
   mkWorld (ticked this os) ss cs rs ocs pf lf rl (tr ++ tick_calls this)).
Proof.
  unfold update, ticked, tick_calls.
  destruct (controls this), (model this), (renderer this); repeat step;
    rewrite <- ?app_assoc, ?app_nil_r; reflexivity.
Qed.

Lemma numbered_renderers_present (vs : list ThreeViewer) (rs : list nat) :
  renderer <$> vs = Some <$> rs → Forall has_renderer vs.
Proof.
  intros Hr. apply Forall_forall. intros v Hv.
  assert (renderer v ∈ renderer <$> vs) as Hin by (apply list_elem_of_fmap; eauto).
  rewrite Hr in Hin. apply list_elem_of_fmap in Hin as (r & Heq & _). by exists r.
Qed.

Lemma forEach_update_spec vs : ∀ os ss cs rs ocs pf lf rl tr,
  Forall has_renderer vs →
  forEach update vs (mkWorld os ss cs rs ocs pf lf rl tr) =
  (Ok tt, mkWorld (ticks vs os) ss cs rs ocs pf lf rl
                  (tr ++ flat_map tick_calls vs)).
Proof.
  induction vs as [|v vs IH]; intros os ss cs rs ocs pf lf rl tr Hr.
  - cbn. by rewrite app_nil_r.
  - apply Forall_cons in Hr as [[r Hv] Hr]. rewrite ticks_cons. cbn [forEach flat_map].
    erewrite bind_ok; [|rewrite update_spec, Hv; reflexivity].
    rewrite IH by done. by rewrite <- app_assoc.
Qed.

Lemma ticked_lookup v os l :
  ticked v os !! l = (if decide (model v = Some l) then rotate_y else id) <$> os !! l.
Proof.
  unfold ticked. destruct (model v) as [m|]; case_decide; simplify_eq.
  - apply list_lookup_alter_eq.
  - rewrite list_lookup_alter_ne by congruence. symmetry. apply option_fmap_id.
  - symmetry. apply option_fmap_id.
Qed.

Lemma ticks_lookup_other vs : ∀ os l,
  Some l ∉ model <$> vs →
  ticks vs os !! l = os !! l.
Proof.
  induction vs as [|v vs IH]; intros os l Hl; [done|].
  rewrite ticks_cons. cbn in Hl. apply not_elem_of_cons in Hl as [Hv Hl].
  rewrite IH, ticked_lookup by done. rewrite decide_False by done.
  by destruct (os !! l).
Qed.

Lemma ticks_lookup_once vs : ∀ os l o,
  NoDup (model <$> vs) → Some l ∈ model <$> vs → os !! l = Some o →
  ticks vs os !! l = Some (rotate_y o).
Proof.
  induction vs as [|v vs IH]; intros os l o Hnd Hin Ho; [by apply elem_of_nil in Hin|].
  rewrite ticks_cons. cbn in Hnd, Hin. apply NoDup_cons in Hnd as [Hv Hnd].
  apply elem_of_cons in Hin as [Heq|Hin].
  - rewrite ticks_lookup_other by (by rewrite Heq).
    by rewrite ticked_lookup, decide_True, Ho.
  - eapply IH; [done..|].
    rewrite ticked_lookup, decide_False, Ho; [done|]. congruence.
Qed.

(** [C5] One [update] of a viewer whose model is [m] replaces the y
    rotation of [m] by its binary64 sum with the literal [0.007] and leaves
    everything else of [m] (position and scale included) and every other
    object as it was; with no model the object store is unchanged. This
    holds whether or not the call then fails on a missing renderer. *)
Theorem update_rotates_model_only (this : ThreeViewer) (w : World) :
  (∀ m o, model this = Some m → objects w !! m = Some o →
     objects (update this w).2 !! m =
       Some (mkObject (kind o) (position o)
               (V3 (vx (rotation o)) (Js.add (vy (rotation o)) Js.n0_007) (vz (rotation o)))
               (scale o) (parent o))) ∧
  (∀ m l, model this = Some m → l ≠ m →
     objects (update this w).2 !! l = objects w !! l) ∧
  (model this = None → objects (update this w).2 = objects w).
Proof.
  destruct w as [os ss cs rs ocs pf lf rl tr]. rewrite update_spec. cbn [snd objects].
  split; [|split].
  - intros m o Hm Ho. by rewrite ticked_lookup, decide_True, Ho.
  - intros m l Hm Hl. rewrite ticked_lookup, decide_False by congruence.
    apply option_fmap_id.
  - intros Hm. unfold ticked. by rewrite Hm.
Qed.

Lemma update_rotates_model_only_witness :
  model demo_viewer = Some 1 ∧
  objects demo_world !! 1 = Some (shown_clone demo_viewer demo_master 0) ∧
  objects (update demo_viewer demo_world).2 !! 1 =
    Some (mkObject (GltfScene WebglViewerComponent.GLB_MODEL_PATH_G) v3_zero
                   (V3 Js.zero Js.n0_007 Js.zero) (V3 Js.two Js.two Js.two) (Some 0)) ∧
  objects (update demo_viewer demo_world).2 !! 0 = Some demo_master.
Proof.
  destruct (update_rotates_model_only demo_viewer demo_world) as (Hrot & Hother & _).
  split_and!; [reflexivity..| |].
  - apply (Hrot 1 (shown_clone demo_viewer demo_master 0)); reflexivity.
  - rewrite (Hother 1 0); [reflexivity..|lia].
Defined.


End viewer.

(** ** The distinct elements of an array *)

Section distinct.
Context {A : Type} `{EqDecision A}.

Lemma set_insert_all_elem (xs : list A) : ∀ seen x,
  x ∈ set_insert_all seen xs ↔ x ∈ seen ∨ x ∈ xs.
Proof.
  induction xs as [|y xs IH]; intros seen x; cbn.
  - rewrite elem_of_nil. tauto.
  - rewrite elem_of_cons. case_decide; rewrite IH.
    + split; [tauto|]. intros [?|[->|?]]; tauto.
    + rewrite elem_of_app, list_elem_of_singleton. tauto.
Qed.

Lemma set_insert_all_NoDup (xs : list A) : ∀ seen,
  NoDup seen → NoDup (set_insert_all seen xs).
Proof.
  induction xs as [|y xs IH]; intros seen Hnd; cbn; [done|].
  case_decide; apply IH; [done|].
  apply NoDup_app. split_and!; [done| |apply NoDup_singleton].
  intros z Hz ->%list_elem_of_singleton. done.
Qed.

Lemma Array_from_Set_elem (xs : list A) x : x ∈ Array_from_Set xs ↔ x ∈ xs.
Proof.
  unfold Array_from_Set. rewrite set_insert_all_elem, elem_of_nil. tauto.
Qed.

Lemma Array_from_Set_NoDup (xs : list A) : NoDup (Array_from_Set xs).
Proof. apply set_insert_all_NoDup, NoDup_nil_2. Qed.

End distinct.

(** ** The map of master models *)

Section masters.
Import WebglViewerComponent.

Lemma masterModels_other (loaded : list loc) paths : ∀ j (acc : gmap string (option loc)) p,
  p ∉ paths →
  foldl (λ m ip, <[ip.2 := loaded !! ip.1]> m) acc (zip (seq j (length paths)) paths) !! p
  = acc !! p.
Proof.
  induction paths as [|q paths IH]; intros j acc p Hp; [done|].
  apply not_elem_of_cons in Hp as [Hq Hp]. cbn.
  rewrite IH by done. by apply lookup_insert_ne.
Qed.

Lemma masterModels_bound (loaded : list loc) paths : ∀ j (acc : gmap string (option loc)) i p,
  NoDup paths → paths !! i = Some p →
  foldl (λ m ip, <[ip.2 := loaded !! ip.1]> m) acc (zip (seq j (length paths)) paths) !! p
  = Some (loaded !! (j + i)).
Proof.
  induction paths as [|q paths IH]; intros j acc i p Hnd Hi; [done|].
  apply NoDup_cons in Hnd as [Hq Hnd]. cbn. destruct i as [|i]; cbn in Hi.
  - simplify_eq. rewrite masterModels_other by done.
    by rewrite lookup_insert_eq, Nat.add_0_r.
  - rewrite (IH (S j) _ i p) by done. do 2 f_equal. lia.
Qed.

(** Each path of [uniqueModelPaths] is a key of the map, bound to the
    model loaded for it. *)
Lemma set_masterModels_get paths (loaded : list loc) i p :
  NoDup paths → paths !! i = Some p →
  Map_get (set_masterModels paths loaded) p = loaded !! i.
Proof.
  intros Hnd Hi. unfold Map_get, set_masterModels.
  by rewrite (masterModels_bound _ _ 0 _ i).
Qed.

End masters.

(** ** Building the viewers *)

Section building.
Import WebglViewerComponent.

Lemma init_viewer_spec env mm els cfg i el m o os ss cs rs ocs pf lf rl tr :
  THREE_defined env = true →
  els !! i = Some el →
  Map_get mm (modelPath cfg) = Some m →
  os !! m = Some o →
  init_viewer env mm els cfg i (mkWorld os ss cs rs ocs pf lf rl tr) =
  (Ok (built_viewer env cfg el (length os) (length ss) (length cs) (length rs) (length ocs)),
   mkWorld (os ++ [ambient_light (length ss); directional_light (length ss);
                   mkObject (kind o) (cfg_pos cfg) (rotation o) (cfg_scale cfg)
                            (Some (length ss))])
           (ss ++ [mkScene (Some 0xF3F3F3%Z)
                           [length os; S (length os); S (S (length os))]])
           (cs ++ [fresh_camera el]) (rs ++ [fresh_renderer el])
           (ocs ++ fresh_controls env (length cs) (length rs)) pf lf rl tr).
Proof.
  intros H3 Hel Hm Ho. unfold init_viewer. rewrite Hel, Hm.
  erewrite bind_ok; [|by apply constructor_spec].
  erewrite addModel_spec; [|reflexivity|by apply lookup_app_l_Some].
  rewrite alter_snoc, <- app_assoc, length_app. cbn.
  unfold built_viewer, with_model, shown_clone. cbn.
  by rewrite (Nat.add_comm (length os) 2).
Qed.

(** The viewers are built one after the other, each on stores that only
    grow: viewer [k] gets renderer [k] and controls [k] of the new ones and
    a clone of its own. *)
Lemma init_viewers_spec env mm els os0 cfgs : ∀ i ex ss cs rs ocs pf lf rl tr,
  THREE_defined env = true →
  Forall (λ cfg, ∃ m o, Map_get mm (modelPath cfg) = Some m ∧ os0 !! m = Some o) cfgs →
  i + length cfgs ≤ length els →
  ∃ vs os' ss' cs' rs' ocs',
    array_map_from i (init_viewer env mm els) cfgs
        (mkWorld (os0 ++ ex) ss cs rs ocs pf lf rl tr)
    = (Ok vs, mkWorld (os0 ++ ex ++ os') (ss ++ ss') (cs ++ cs') (rs ++ rs') (ocs ++ ocs')
                      pf lf rl tr) ∧
    config <$> vs = cfgs ∧
    renderer <$> vs = Some <$> seq (length rs) (length cfgs) ∧
    length rs' = length cfgs ∧
    controls <$> vs =
      (if OrbitControls_defined env then Some <$> seq (length ocs) (length cfgs)
       else replicate (length cfgs) None) ∧
    length ocs' = (if OrbitControls_defined env then length cfgs else 0) ∧
    NoDup (model <$> vs) ∧
    Forall (shows_clone mm os0 (os0 ++ ex) (os0 ++ ex ++ os')) vs.
Proof.
  induction cfgs as [|cfg cfgs IH]; intros i ex ss cs rs ocs pf lf rl tr H3 Hmm Hlen.
  - exists [], [], [], [], [], []. rewrite !app_nil_r. cbn.
    split_and!; try done; [by destruct (OrbitControls_defined env)..|apply NoDup_nil_2].
  - apply Forall_cons in Hmm as [(m & o & Hm & Ho) Hmm]. cbn [length] in Hlen.
    destruct (lookup_lt_is_Some_2 els i) as [el Hel]; [lia|].
    cbn [array_map_from].
    erewrite bind_ok;
      [|by eapply init_viewer_spec; [..|apply lookup_app_l_Some]].
    rewrite <- (app_assoc os0 ex).
    edestruct (IH (S i)) as (vs & os' & ss' & cs' & rs' & ocs' &
                             Hrun & Hcfg & Hr & Hrl & Hc & Hcl & Hnd & Hsh);
      [done..|lia|].
    erewrite bind_ok; [|exact Hrun]. rewrite run_ret.
    rewrite <- !app_assoc. rewrite <- !app_assoc in Hsh.
    eexists _, _, _, _, _, _. split; [reflexivity|].
    rewrite !length_app in Hr, Hc. cbn [length fmap list_fmap] in *.
    assert (Hsh' : Forall (shows_clone mm os0 (os0 ++ ex)
              (os0 ++ ex ++ [ambient_light (length ss); directional_light (length ss);
                     mkObject (kind o) (cfg_pos cfg) (rotation o) (cfg_scale cfg)
                              (Some (length ss))] ++ os')) vs).
    { eapply Forall_impl; [exact Hsh|]. intros v (c & m' & o' & s' & ? & Hc' & ?).
      exists c, m', o', s'. split_and!; try tauto.
      revert Hc'. rewrite !length_app. cbn. lia. }
    split_and!.
    + cbn. by rewrite Hcfg.
    + cbn. rewrite Hr, Nat.add_1_r. done.
    + cbn. lia.
    + cbn. rewrite Hc. unfold fresh_controls.
      destruct (OrbitControls_defined env); cbn; [|done].
      by rewrite ?Nat.add_1_r.
    + unfold fresh_controls. destruct (OrbitControls_defined env); cbn; lia.
    + cbn. apply NoDup_cons. split; [|done].
      intros (v & Hv & Hin)%list_elem_of_fmap.
      rewrite Forall_forall in Hsh. destruct (Hsh v Hin) as (c & ? & ? & ? & Hc' & Hge & _).
      rewrite Hc' in Hv. simplify_eq. rewrite !length_app in Hge. cbn in Hge. lia.
    + apply Forall_cons. split; [|done].
      exists (length (os0 ++ ex) + 2), m, o, (length ss). cbn.
      split_and!; try done; [lia|].
      rewrite app_assoc, lookup_app_r by lia.
      replace (length (os0 ++ ex) + 2 - length (os0 ++ ex)) with 2 by lia. done.
Qed.

End building.

(** ** WebglViewerComponent: loading *)

Section loading.
Import WebglViewerComponent.

Lemma imports_defined env :
  checkThreeJsLoaded env = Resolved tt →
  THREE_defined env = true ∧ GLTFLoader_defined env = true ∧ OrbitControls_defined env = true.
Proof.
  unfold checkThreeJsLoaded.
  by destruct (THREE_defined env), (GLTFLoader_defined env), (OrbitControls_defined env).
Qed.

Lemma load_promise_spec env path warn edge os ss cs rs ocs pf lf rl tr :
  THREE_defined env = true → GLTFLoader_defined env = true →
  load_promise env path warn edge (mkWorld os ss cs rs ocs pf lf rl tr) =
  (Resolved (length os),
   mkWorld (os ++ [loaded_object env edge path]) ss cs rs ocs pf lf rl
           (tr ++ load_calls env warn path)).
Proof.
  intros H3 HL. unfold load_promise, loaded_object, load_calls. rewrite HL, H3.
  destruct (load_outcome env path); wsimpl; rewrite <- ?app_assoc; reflexivity.
Qed.

Lemma load_each_spec env paths : ∀ os ss cs rs ocs pf lf rl tr,
  THREE_defined env = true → GLTFLoader_defined env = true →
  load_each env paths (mkWorld os ss cs rs ocs pf lf rl tr) =
  (Resolved <$> seq (length os) (length paths),
   mkWorld (os ++ (loaded_object env 1 <$> paths)) ss cs rs ocs pf lf rl
           (tr ++ flat_map (λ p, load_calls env (loadModel_warn p) p) paths)).
Proof.
  induction paths as [|p paths IH]; intros os ss cs rs ocs pf lf rl tr H3 HL.
  - cbn. by rewrite !app_nil_r.
  - cbn [load_each]. unfold loadModel. rewrite load_promise_spec by done.
    rewrite IH by done. rewrite length_app, Nat.add_1_r. cbn.
    by rewrite <- !app_assoc.
Qed.

Lemma Promise_all_resolved {A} (l : list A) : Promise_all (Resolved <$> l) = Resolved l.
Proof. induction l as [|a l IH]; [done|]. cbn. by rewrite IH. Qed.

(** [C2] Once the imported names are defined (what [ngAfterViewInit] waits
    for before it loads anything), the promise of [loadModel], and that of
    [loadMasterModel], is resolved whatever the loader answers, never
    rejected: with the scene of the file when the loader succeeds, with a
    placeholder box mesh when it fails. The loader is called once; the
    failure is reported on the console and not retried. *)
Theorem load_resolves_with_scene_or_fallback (env : Env) (path : string) (w : World) :
  checkThreeJsLoaded env = Resolved tt →
  (∃ w', loadModel env path w = (Resolved (length (objects w)), w') ∧
     objects w' = objects w ++
       [match load_outcome env path with
        | LoadOk p r s => mkObject (GltfScene path) p r s None
        | LoadError _ =>
            mkObject (Mesh (BoxGeometry Js.one Js.one Js.one) MeshNormalMaterial)
                     v3_zero v3_zero v3_one None
        end] ∧
     trace w' = trace w ++ EvLoad path ::
       match load_outcome env path with
       | LoadOk _ _ _ => []
       | LoadError _ => [EvConsoleWarn ("Error loading GLB model at " +:+ path +:+ ":")]
       end) ∧
  (∃ w', loadMasterModel env w = (Resolved (length (objects w)), w') ∧
     objects w' = objects w ++
       [match load_outcome env GLB_MODEL_PATH with
        | LoadOk p r s => mkObject (GltfScene GLB_MODEL_PATH) p r s None
        | LoadError _ =>
            mkObject (Mesh (BoxGeometry (Js.of_Z 20) (Js.of_Z 20) (Js.of_Z 20))
                           MeshNormalMaterial)
                     v3_zero v3_zero v3_one None
        end] ∧
     trace w' = trace w ++ EvLoad GLB_MODEL_PATH ::
       match load_outcome env GLB_MODEL_PATH with
       | LoadOk _ _ _ => []
       | LoadError _ => [EvConsoleError "Error loading GLB model:"]
       end).
Proof.
  intros (H3 & HL & _)%imports_defined. destruct w as [os ss cs rs ocs pf lf rl tr].
  unfold loadModel, loadMasterModel. rewrite !load_promise_spec by done.
  split; eexists; (split; [reflexivity|]); cbn [objects trace];
    unfold loaded_object, load_calls; by destruct (load_outcome env _).
Qed.

Lemma load_resolves_with_scene_or_fallback_witness :
  checkThreeJsLoaded demo_env = Resolved tt ∧
  (∃ w', loadModel demo_env GLB_MODEL_PATH_EDGE empty_world = (Resolved 0, w') ∧
         objects w' = [fallback_box 1]) ∧
  (∃ w', loadMasterModel demo_env empty_world = (Resolved 0, w') ∧
         objects w' = [demo_master]).
Proof.
  split; [reflexivity|].
  destruct (load_resolves_with_scene_or_fallback demo_env GLB_MODEL_PATH_EDGE empty_world)
    as ((w1 & Hrun1 & Hobj1 & _) & (w2 & Hrun2 & Hobj2 & _)); [reflexivity|].
  split; [exists w1|exists w2]; (split; [assumption|]); [exact Hobj1|exact Hobj2].
Defined.


End loading.

(** ** WebglViewerComponent: the animation loop *)

Lemma bind_world {A B} (c : M World A) (k : A → M CS B) this w a w1 :
  c w = (Ok a, w1) → (world c ≫= k) (this, w) = k a (this, w1).
Proof. intros Hc. apply bind_ok. unfold world. cbn. by rewrite Hc. Qed.

Lemma run_world {A} (c : M World A) this w r w1 :
  c w = (r, w1) → world c (this, w) = (r, (this, w1)).
Proof. intros Hc. unfold world. cbn. by rewrite Hc. Qed.

Lemma bind_this_modify {B} f (k : unit → M CS B) this w :
  (this_modify f ≫= k) (this, w) = k tt (f this, w).
Proof. reflexivity. Qed.

Lemma bind_this_get {A B} (f : Component → A) (k : A → M CS B) this w :
  (this_get f ≫= k) (this, w) = k (f this) (this, w).
Proof. reflexivity. Qed.

Section animation.
Import WebglViewerComponent.

Lemma animate_spec this os ss cs rs ocs pf lf rl tr :
  Forall has_renderer (viewers this) →
  animate (this, mkWorld os ss cs rs ocs pf lf rl tr) =
  (Ok tt,
   (set_animateId (S lf) this,
    mkWorld (ticks (viewers this) os) ss cs rs ocs (pf ++ [S lf]) (S lf) rl
            (tr ++ EvRequestAnimationFrame (S lf) :: flat_map tick_calls (viewers this)))).
Proof.
  intros Hr. unfold animate.
  erewrite bind_world; [|unfold requestAnimationFrame; wsimpl; reflexivity].
  rewrite bind_this_modify, bind_this_get.
  erewrite run_world; [|by apply forEach_update_spec].
  by rewrite <- app_assoc.
Qed.

End animation.

(** ** Releasing the viewers *)

Section releasing.
Import ThreeViewer.

Lemma dispose_spec rev v os ss cs rs ocs pf lf rl tr :
  dispose rev v (mkWorld os ss cs rs ocs pf lf rl tr) =
  (Ok tt, mkWorld os ss cs (released_renderers rev v rs) (released_controls v ocs)
                  pf lf rl (tr ++ dispose_calls v)).
Proof.
  unfold dispose, released_renderers, released_controls, dispose_calls.
  destruct (controls v), (renderer v), rev; repeat step;
    rewrite <- ?app_assoc, ?app_nil_r; reflexivity.
Qed.

Lemma forEach_dispose_spec rev vs : ∀ os ss cs rs ocs pf lf rl tr,
  forEach (dispose rev) vs (mkWorld os ss cs rs ocs pf lf rl tr) =
  (Ok tt, mkWorld os ss cs (foldl (λ rs v, released_renderers rev v rs) rs vs)
                  (foldl (λ ocs v, released_controls v ocs) ocs vs)
                  pf lf rl (tr ++ flat_map dispose_calls vs)).
Proof.
  induction vs as [|v vs IH]; intros os ss cs rs ocs pf lf rl tr.
  - cbn. by rewrite app_nil_r.
  - cbn [forEach foldl flat_map].
    erewrite bind_ok; [|apply dispose_spec]. rewrite IH. by rewrite <- app_assoc.
Qed.

Lemma released_renderers_lookup rev v rs r x :
  released_renderers rev v rs !! r = Some x →
  ∃ x0, rs !! r = Some x0 ∧ (released rev x0 → released rev x) ∧
        (renderer v = Some r → released rev x).
Proof.
  unfold released_renderers, released.
  destruct (renderer v) as [r'|]; [|intros Hx; exists x; naive_solver].
  destruct (decide (r' = r)) as [->|Hne].
  - destruct rev; rewrite ?list_lookup_alter_eq; destruct (rs !! r) as [x0|] eqn:E;
      cbn; intros [= <-]; exists x0; cbn; intuition congruence.
  - destruct rev; rewrite ?list_lookup_alter_ne by done; intros ->;
      eexists; split_and!; naive_solver.
Qed.

Lemma all_released_renderers rev vs : ∀ rs r x,
  foldl (λ rs v, released_renderers rev v rs) rs vs !! r = Some x →
  ∃ x0, rs !! r = Some x0 ∧ (released rev x0 → released rev x) ∧
        (Some r ∈ renderer <$> vs → released rev x).
Proof.
  induction vs as [|v vs IH]; intros rs r x Hx; cbn in *.
  - exists x. split_and!; [done..|]. by intros ?%elem_of_nil.
  - destruct (IH _ _ _ Hx) as (x1 & Hx1 & Hkeep & Hin).
    destruct (released_renderers_lookup _ _ _ _ _ Hx1) as (x0 & Hx0 & Hkeep0 & Hv).
    exists x0. split_and!; [done|tauto|].
    intros [Heq|?]%elem_of_cons; [|tauto]. apply Hkeep, Hv. done.
Qed.

Lemma released_controls_lookup v ocs c x :
  released_controls v ocs !! c = Some x →
  ∃ x0, ocs !! c = Some x0 ∧ (controls_disposed x0 = true → controls_disposed x = true) ∧
        (controls v = Some c → controls_disposed x = true).
Proof.
  unfold released_controls.
  destruct (controls v) as [c'|]; [|intros Hx; exists x; naive_solver].
  destruct (decide (c' = c)) as [->|Hne].
  - rewrite list_lookup_alter_eq. destruct (ocs !! c) as [x0|] eqn:E;
      cbn; intros ?; simplify_eq; exists x0; cbn; naive_solver.
  - rewrite list_lookup_alter_ne by done. intros ->. eexists; split_and!; naive_solver.
Qed.

Lemma all_released_controls vs : ∀ ocs c x,
  foldl (λ ocs v, released_controls v ocs) ocs vs !! c = Some x →
  ∃ x0, ocs !! c = Some x0 ∧ (controls_disposed x0 = true → controls_disposed x = true) ∧
        (Some c ∈ controls <$> vs → controls_disposed x = true).
Proof.
  induction vs as [|v vs IH]; intros ocs c x Hx; cbn in *.
  - exists x. split_and!; [done..|]. by intros ?%elem_of_nil.
  - destruct (IH _ _ _ Hx) as (x1 & Hx1 & Hkeep & Hin).
    destruct (released_controls_lookup _ _ _ _ Hx1) as (x0 & Hx0 & Hkeep0 & Hv).
    exists x0. split_and!; [done|tauto|].
    intros [Heq|?]%elem_of_cons; [|tauto]. apply Hkeep, Hv. done.
Qed.

End releasing.

(** ** WebglViewerComponent: initialisation *)

Lemma try_catch_ok {St A} (body : M St A) handler (s s1 : St) (a : A) :
  body s = (Ok a, s1) → try_catch body handler s = (Ok a, s1).
Proof. unfold try_catch. by intros ->. Qed.

Section initialisation.
Import WebglViewerComponent.

(** Every configuration's path is a key of the map of masters, bound to
    the object loaded for that path. *)
Lemma masterModels_cover env (os : list Object3D) cfg :
  cfg ∈ allModelConfigs →
  ∃ i, uniqueModelPaths !! i = Some (modelPath cfg) ∧
       Map_get (masterModels_at (length os)) (modelPath cfg) = Some (length os + i) ∧
       (os ++ masters env) !! (length os + i) = Some (loaded_object env 1 (modelPath cfg)).
Proof.
  intros Hin.
  assert (modelPath cfg ∈ uniqueModelPaths) as [i Hi]%list_elem_of_lookup.
  { apply Array_from_Set_elem, list_elem_of_fmap. eauto. }
  exists i. split; [done|]. split.
  - unfold masterModels_at.
    erewrite set_masterModels_get; [|apply Array_from_Set_NoDup|done].
    apply lookup_seq_lt. by eapply lookup_lt_Some.
  - rewrite lookup_app_r by lia. replace (length os + i - length os) with i by lia.
    unfold masters. by rewrite list_lookup_fmap, Hi.
Qed.

(** The run of [ngAfterViewInit] when the imported names are defined and
    the template has a container for every configuration. *)
Lemma ngAfterViewInit_ok env this os ss cs rs ocs pf lf rl tr :
  checkThreeJsLoaded env = Resolved tt →
  length allModelConfigs ≤ length (containers env) →
  ∃ vs os' ss' cs' rs' ocs',
    ngAfterViewInit env (this, mkWorld os ss cs rs ocs pf lf rl tr) =
    (Ok tt,
     (mkComponent vs (S lf) true,
      mkWorld (ticks vs ((os ++ masters env) ++ os')) (ss ++ ss') (cs ++ cs')
              (rs ++ rs') (ocs ++ ocs') (pf ++ [S lf]) (S lf) rl
              (tr ++ load_trace env
                  ++ EvMarkForCheck :: EvRequestAnimationFrame (S lf)
                       :: flat_map tick_calls vs))) ∧
    config <$> vs = allModelConfigs ∧
    renderer <$> vs = Some <$> seq (length rs) (length allModelConfigs) ∧
    length rs' = length allModelConfigs ∧
    controls <$> vs = Some <$> seq (length ocs) (length allModelConfigs) ∧
    length ocs' = length allModelConfigs ∧
    NoDup (model <$> vs) ∧
    Forall (shows_clone (masterModels_at (length os)) (os ++ masters env)
                        (os ++ masters env) ((os ++ masters env) ++ os')) vs.
Proof.
  intros Hchk Hlen. destruct (imports_defined _ Hchk) as (H3 & HL & HO).
  destruct (init_viewers_spec env (masterModels_at (length os)) (containers env)
              (os ++ masters env) allModelConfigs 0 [] ss cs rs ocs pf lf rl
              (tr ++ load_trace env) H3)
    as (vs & os' & ss' & cs' & rs' & ocs' & Hrun & Hcfg & Hr & Hrl & Hc & Hcl & Hnd & Hsh).
  { apply Forall_forall. intros cfg Hin.
    destruct (masterModels_cover env os cfg Hin) as (i & _ & Hget & Hm). eauto. }
  { done. }
  rewrite HO in Hc, Hcl. rewrite !app_nil_r in Hrun, Hsh. cbn [app] in Hrun, Hsh.
  exists vs, os', ss', cs', rs', ocs'. split; [|done].
  apply try_catch_ok. rewrite Hchk. cbv beta iota.
  erewrite bind_world;
    [|unfold alloc; rewrite load_each_spec by done; reflexivity].
  rewrite Promise_all_resolved. cbv beta iota zeta.
  rewrite decide_False by lia.
  erewrite bind_world; [|exact Hrun].
  rewrite !bind_this_modify.
  erewrite bind_world; [|rewrite run_modify; wsimpl; reflexivity].
  rewrite animate_spec by (by eapply numbered_renderers_present).
  unfold set_animateId, set_isLoaded, set_viewers; cbn [viewers animateId isLoaded].
  rewrite <- !app_assoc. reflexivity.
Qed.

(** The run when the template has too few containers: the masters are
    loaded, the shortage is reported, and nothing else happens. *)
Lemma ngAfterViewInit_short env this os ss cs rs ocs pf lf rl tr :
  checkThreeJsLoaded env = Resolved tt →
  length (containers env) < length allModelConfigs →
  ngAfterViewInit env (this, mkWorld os ss cs rs ocs pf lf rl tr) =
  (Ok tt, (this, mkWorld (os ++ masters env) ss cs rs ocs pf lf rl
                         (tr ++ load_trace env ++ [missing_containers env]))).
Proof.
  intros Hchk Hlen. destruct (imports_defined _ Hchk) as (H3 & HL & HO).
  apply try_catch_ok. rewrite Hchk. cbv beta iota.
  erewrite bind_world;
    [|unfold alloc; rewrite load_each_spec by done; reflexivity].
  rewrite Promise_all_resolved. cbv beta iota zeta.
  rewrite decide_True by done.
  erewrite run_world; [|rewrite run_modify; wsimpl; reflexivity].
  by rewrite <- app_assoc.
Qed.

(** The run while one of the imported names is undefined: the wait never
    ends and nothing happens. *)
Lemma ngAfterViewInit_waiting env s :
  checkThreeJsLoaded env ≠ Resolved tt →
  ngAfterViewInit env s = (Ok tt, s).
Proof.
  intros Hchk. unfold ngAfterViewInit, try_catch.
  destruct (checkThreeJsLoaded env) as [[]|e|] eqn:E; try done.
  unfold checkThreeJsLoaded in E. by case_match.
Qed.

Lemma waiting_or_ready env :
  checkThreeJsLoaded env = Resolved tt ∨ checkThreeJsLoaded env ≠ Resolved tt.
Proof. unfold checkThreeJsLoaded. case_match; [by left|by right]. Qed.


Lemma load_trace_frames env : filter is_frame_request (load_trace env) = [].
Proof.
  unfold load_trace. induction uniqueModelPaths as [|p ps IH]; [done|].
  cbn [flat_map]. rewrite filter_app, IH. unfold load_calls.
  by destruct (load_outcome env p).
Qed.




Lemma missing_containers_frames env :
  filter is_frame_request [missing_containers env] = [].
Proof. reflexivity. Qed.


(** [C9] With fewer container elements than configurations
    [ngAfterViewInit] leaves the component as it was (on a new component:
    no viewer, [isLoaded] false), creates no scene, camera, renderer or
    controls, and requests no animation frame. *)
Theorem too_few_containers_abort (env : Env) (this : Component) (w : World) :
  length (containers env) < length allModelConfigs →
  (ngAfterViewInit env (this, w)).2.1 = this ∧
  viewers (ngAfterViewInit env (new_component, w)).2.1 = [] ∧
  isLoaded (ngAfterViewInit env (new_component, w)).2.1 = false ∧
  scenes (ngAfterViewInit env (this, w)).2.2 = scenes w ∧
  cameras (ngAfterViewInit env (this, w)).2.2 = cameras w ∧
  renderers (ngAfterViewInit env (this, w)).2.2 = renderers w ∧
  orbits (ngAfterViewInit env (this, w)).2.2 = orbits w ∧
  pending_frames (ngAfterViewInit env (this, w)).2.2 = pending_frames w ∧
  filter is_frame_request (trace (ngAfterViewInit env (this, w)).2.2)
    = filter is_frame_request (trace w).
Proof.
  intros Hlen. destruct (waiting_or_ready env) as [Hchk|Hchk].
  - destruct w as [os ss cs rs ocs pf lf rl tr].
    rewrite !ngAfterViewInit_short by done. cbn [fst snd].
    split_and!; try reflexivity. cbn [trace].
    rewrite !filter_app, load_trace_frames, missing_containers_frames.
    rewrite !app_nil_r. reflexivity.
  - rewrite !ngAfterViewInit_waiting by done. done.
Qed.

Lemma too_few_containers_abort_witness :
  length (containers (mkEnv true true true true (load_outcome demo_env) [demo_element]))
    < length allModelConfigs ∧
  isLoaded (ngAfterViewInit
              (mkEnv true true true true (load_outcome demo_env) [demo_element])
              (new_component, empty_world)).2.1 = false.
Proof.
  assert (length (containers (mkEnv true true true true (load_outcome demo_env)
                                    [demo_element])) < length allModelConfigs) as Hlt
    by (vm_compute; lia).
  split; [exact Hlt|].
  apply (too_few_containers_abort _ new_component empty_world Hlt).
Defined.


(** [C10] When [ngAfterViewInit] on a new component ends with [isLoaded]
    true, the component has one viewer for each entry of
    [allModelConfigs], in the same order, and each viewer has a model:
    every configuration's path is bound in the map of masters. *)
Theorem loaded_has_viewer_per_config (env : Env) (w : World) :
  isLoaded (ngAfterViewInit env (new_component, w)).2.1 = true →
  config <$> viewers (ngAfterViewInit env (new_component, w)).2.1 = allModelConfigs ∧
  length (viewers (ngAfterViewInit env (new_component, w)).2.1) = length allModelConfigs ∧
  Forall (λ v, is_Some (model v)) (viewers (ngAfterViewInit env (new_component, w)).2.1) ∧
  Forall (λ cfg, is_Some (Map_get (masterModels_at (length (objects w))) (modelPath cfg)))
         allModelConfigs.
Proof.
  intros Hl.
  assert (Forall (λ cfg, is_Some (Map_get (masterModels_at (length (objects w)))
                                          (modelPath cfg))) allModelConfigs) as Hkeys.
  { apply Forall_forall. intros cfg Hin.
    destruct (masterModels_cover env (objects w) cfg Hin) as (i & _ & -> & _). eauto. }
  destruct (waiting_or_ready env) as [Hchk|Hchk];
    [|by rewrite ngAfterViewInit_waiting in Hl].
  destruct w as [os ss cs rs ocs pf lf rl tr].
  destruct (decide (length (containers env) < length allModelConfigs)) as [Hs|Hs];
    [by rewrite ngAfterViewInit_short in Hl|].
  destruct (ngAfterViewInit_ok env new_component os ss cs rs ocs pf lf rl tr Hchk)
    as (vs & os' & ss' & cs' & rs' & ocs' & -> & Hcfg & _ & _ & _ & _ & _ & Hsh); [lia|].
  cbn [fst snd viewers]. split_and!; [done| |  |done].
  - by rewrite <- Hcfg, length_fmap.
  - eapply Forall_impl; [exact Hsh|]. intros v (c & _ & _ & _ & -> & _). eauto.
Qed.

Lemma loaded_has_viewer_per_config_witness :
  isLoaded (ngAfterViewInit demo_env (new_component, empty_world)).2.1 = true ∧
  length (viewers (ngAfterViewInit demo_env (new_component, empty_world)).2.1)
    = length allModelConfigs.
Proof.
  assert (isLoaded (ngAfterViewInit demo_env (new_component, empty_world)).2.1 = true)
    as Hl by (vm_compute; reflexivity).
  split; [exact Hl|].
  apply (loaded_has_viewer_per_config demo_env empty_world Hl).
Defined.





End initialisation.

(** ** WebglViewerComponent: teardown and the life of the page *)

Section teardown.
Import WebglViewerComponent.

Lemma ngOnDestroy_spec rev env this os ss cs rs ocs pf lf rl tr :
  ngOnDestroy rev env (this, mkWorld os ss cs rs ocs pf lf rl tr) =
  (Ok tt,
   (this,
    mkWorld os ss cs
      (foldl (λ rs v, released_renderers rev v rs) rs (viewers this))
      (foldl (λ ocs v, released_controls v ocs) ocs (viewers this))
      (if decide (animateId this ≠ 0) then filter (λ f, f ≠ animateId this) pf else pf)
      lf (if window_defined env then false else rl)
      (tr ++ (if decide (animateId this ≠ 0)
              then [EvCancelAnimationFrame (animateId this)] else [])
          ++ flat_map dispose_calls (viewers this)
          ++ (if window_defined env then [EvRemoveResizeListener] else [])))).
Proof.
  unfold ngOnDestroy. rewrite bind_this_get.
  destruct (decide (animateId this ≠ 0)) as [Hid|Hid].
  - erewrite bind_world;
      [|unfold cancelAnimationFrame; repeat step; reflexivity].
    rewrite bind_this_get.
    erewrite bind_world; [|apply forEach_dispose_spec].
    destruct (window_defined env).
    + erewrite bind_world; [|rewrite run_modify; wsimpl; reflexivity].
      erewrite run_world; [|rewrite run_modify; wsimpl; reflexivity].
      by rewrite <- !app_assoc.
    + rewrite run_ret, <- !app_assoc, app_nil_r. reflexivity.
  - rewrite bind_ret, bind_this_get.
    erewrite bind_world; [|apply forEach_dispose_spec].
    destruct (window_defined env).
    + erewrite bind_world; [|rewrite run_modify; wsimpl; reflexivity].
      erewrite run_world; [|rewrite run_modify; wsimpl; reflexivity].
      by rewrite <- !app_assoc.
    + rewrite run_ret, app_nil_r. reflexivity.
Qed.

Lemma owns_world_renderers s : owns_world s → Forall has_renderer (viewers s.1).
Proof.
  intros (Hr & _ & _). by eapply numbered_renderers_present.
Qed.

Lemma afterNextRender_callback_spec env :
  afterNextRender_callback env empty_world =
  (Ok tt, mkWorld [] [] [] [] [] [] 0 (window_defined env)
                  (if window_defined env then [EvAddResizeListener] else [])).
Proof. unfold afterNextRender_callback. by destruct (window_defined env). Qed.

Lemma page_opened_owns_world env : owns_world (page_opened env).
Proof.
  unfold page_opened. rewrite afterNextRender_callback_spec. cbn [snd].
  destruct (waiting_or_ready env) as [Hchk|Hchk].
  - destruct (decide (length (containers env) < length allModelConfigs)) as [Hs|Hs].
    + rewrite ngAfterViewInit_short by done. split_and!; [done|intros c Hc; cbn in Hc; lia|by left].
    + edestruct ngAfterViewInit_ok
        as (vs & os' & ss' & cs' & rs' & ocs' & -> & _ & Hr & Hrl & Hc & Hcl & _);
        [done|lia|].
      unfold owns_world. cbn [fst snd viewers renderers orbits pending_frames animateId].
      rewrite !app_nil_l, Hrl, Hcl. split_and!; [done| |by right].
      intros c Hlt. rewrite Hc. apply list_elem_of_fmap. exists c. split; [done|].
      apply elem_of_seq. cbn [length]. lia.
  - rewrite ngAfterViewInit_waiting by done. split_and!; [done|intros c Hc; cbn in Hc; lia|by left].
Qed.

Lemma run_frame_owns_world s : owns_world s → owns_world (run_frame s).2.
Proof.
  intros Ho. pose proof (owns_world_renderers _ Ho) as Hhas.
  destruct Ho as (Hr & Hc & Hp). destruct s as [this [os ss cs rs ocs pf lf rl tr]].
  cbn [fst snd pending_frames renderers orbits] in *. unfold run_frame. cbn [fst snd pending_frames].
  destruct Hp as [->|[-> Hid]]; [by split_and!; [..|left]|].
  rewrite set_frames_mk, animate_spec by done.
  unfold owns_world. cbn [fst snd viewers set_animateId renderers orbits pending_frames animateId].
  split_and!; [done..|]. right. by split.
Qed.

Lemma page_running_owns_world env n : owns_world (page_running env n).
Proof.
  unfold page_running, run_frames. induction n as [|n IH]; cbn [Nat.iter].
  - apply page_opened_owns_world.
  - by apply run_frame_owns_world.
Qed.

Lemma page_opened_listening env :
  resize_listening (page_opened env).2 = window_defined env.
Proof.
  unfold page_opened. rewrite afterNextRender_callback_spec. cbn [snd].
  destruct (waiting_or_ready env) as [Hchk|Hchk];
    [|by rewrite ngAfterViewInit_waiting by done].
  destruct (decide (length (containers env) < length allModelConfigs)) as [Hs|Hs].
  - by rewrite ngAfterViewInit_short by done.
  - edestruct ngAfterViewInit_ok as (vs & os' & ss' & cs' & rs' & ocs' & -> & _);
      [done|lia|done].
Qed.

Lemma run_frame_listening s :
  owns_world s → resize_listening (run_frame s).2.2 = resize_listening s.2.
Proof.
  intros Ho. pose proof (owns_world_renderers _ Ho) as Hhas.
  destruct Ho as (_ & _ & Hp). destruct s as [this [os ss cs rs ocs pf lf rl tr]].
  cbn [fst snd pending_frames] in *. unfold run_frame. cbn [fst snd pending_frames].
  destruct Hp as [->|[-> Hid]]; [done|].
  by rewrite set_frames_mk, animate_spec by done.
Qed.

Lemma page_running_listening env n :
  resize_listening (page_running env n).2 = window_defined env.
Proof.
  induction n as [|n IH]; [apply page_opened_listening|].
  rewrite <- IH. apply (run_frame_listening _ (page_running_owns_world env n)).
Qed.

Lemma tick_calls_frames vs : filter is_frame_request (flat_map tick_calls vs) = [].
Proof.
  induction vs as [|v vs IH]; [done|]. cbn [flat_map]. rewrite filter_app, IH.
  unfold tick_calls. by destruct (controls v), (renderer v).
Qed.

Lemma tick_calls_renders vs :
  Forall has_renderer vs →
  length (filter is_render (flat_map tick_calls vs)) = length vs.
Proof.
  induction 1 as [|v vs [r Hr] _ IH]; [done|].
  cbn [flat_map]. rewrite filter_app, length_app, IH.
  unfold tick_calls. rewrite Hr. by destruct (controls v).
Qed.

Lemma load_trace_renders env : filter is_render (load_trace env) = [].
Proof.
  unfold load_trace. induction uniqueModelPaths as [|p ps IH]; [done|].
  cbn [flat_map]. rewrite filter_app, IH. unfold load_calls, loadModel_warn.
  by destruct (load_outcome env p).
Qed.

Lemma page_opened_loop_running env :
  checkThreeJsLoaded env = Resolved tt →
  length allModelConfigs ≤ length (containers env) →
  loop_running 0 (page_opened env).
Proof.
  intros Hchk Hlen. unfold page_opened. rewrite afterNextRender_callback_spec. cbn [snd].
  edestruct ngAfterViewInit_ok
    as (vs & os' & ss' & cs' & rs' & ocs' & -> & Hcfg & Hr & _); [done..|].
  pose proof (numbered_renderers_present _ _ Hr) as Hhas.
  unfold loop_running. cbn [fst snd isLoaded viewers pending_frames animateId trace].
  split_and!; [done|by rewrite <- Hcfg, length_fmap|done|done| |].
  - change (EvMarkForCheck :: EvRequestAnimationFrame 1 :: flat_map tick_calls vs)
      with ([EvMarkForCheck; EvRequestAnimationFrame 1] ++ flat_map tick_calls vs).
    rewrite !filter_app, load_trace_frames, tick_calls_frames.
    by destruct (window_defined env).
  - change (EvMarkForCheck :: EvRequestAnimationFrame 1 :: flat_map tick_calls vs)
      with ([EvMarkForCheck; EvRequestAnimationFrame 1] ++ flat_map tick_calls vs).
    rewrite !filter_app, !length_app, load_trace_renders, tick_calls_renders by done.
    replace (filter is_render (if window_defined env then [EvAddResizeListener] else []))
      with (@nil Event) by (by destruct (window_defined env)).
    change (filter is_render [EvMarkForCheck; EvRequestAnimationFrame 1]) with (@nil Event).
    cbn [length]. lia.
Qed.

Lemma run_frame_loop_running n s :
  loop_running n s → loop_running (S n) (run_frame s).2.
Proof.
  destruct s as [this [os ss cs rs ocs pf lf rl tr]].
  intros (Hl & Hn & Hhas & Hp & Hf & Hrd). cbn [fst snd pending_frames trace] in *.
  unfold run_frame. cbn [fst snd pending_frames]. rewrite Hp.
  rewrite set_frames_mk, animate_spec by done.
  unfold loop_running.
  cbn [fst snd isLoaded viewers set_animateId pending_frames animateId trace].
  split_and!; [done..| |].
  - change (EvRequestAnimationFrame (S lf) :: flat_map tick_calls (viewers this))
      with ([EvRequestAnimationFrame (S lf)] ++ flat_map tick_calls (viewers this)).
    rewrite !filter_app, !length_app, tick_calls_frames, Hf.
    change (filter is_frame_request [EvRequestAnimationFrame (S lf)])
      with [EvRequestAnimationFrame (S lf)].
    cbn [length]. lia.
  - change (EvRequestAnimationFrame (S lf) :: flat_map tick_calls (viewers this))
      with ([EvRequestAnimationFrame (S lf)] ++ flat_map tick_calls (viewers this)).
    rewrite !filter_app, !length_app, tick_calls_renders, Hrd by done.
    change (filter is_render [EvRequestAnimationFrame (S lf)]) with (@nil Event).
    cbn [length]. lia.
Qed.

Lemma page_running_loop_running env n :
  checkThreeJsLoaded env = Resolved tt →
  length allModelConfigs ≤ length (containers env) →
  loop_running n (page_running env n).
Proof.
  intros Hchk Hlen. induction n as [|n IH]; [by apply page_opened_loop_running|].
  unfold page_running, run_frames in *. cbn [Nat.iter]. by apply run_frame_loop_running.
Qed.

(** [C6] [ngOnDestroy] releases what the viewers of the array hold: the
    frame the component asked for last is cancelled, every viewer's
    renderer is disposed (and, in the multi-asset revision, its canvas
    taken off the page), every viewer's controls are disposed, and the
    resize listener is removed where there is a [window]. Over the life of
    a page, from the making of the component through any number of frames
    to [ngOnDestroy], this leaves no renderer undisposed, no controls
    undisposed, no frame pending and no listener. *)
Theorem destroy_releases_viewers (rev : Revision) (env : Env) (this : Component) (w : World) :
  (animateId this ≠ 0 →
     (animateId this ∉ pending_frames (ngOnDestroy rev env (this, w)).2.2) ∧
     EvCancelAnimationFrame (animateId this) ∈ trace (ngOnDestroy rev env (this, w)).2.2) ∧
  (∀ v r x, v ∈ viewers this → renderer v = Some r →
     renderers (ngOnDestroy rev env (this, w)).2.2 !! r = Some x →
     released rev x ∧ EvRendererDispose r ∈ trace (ngOnDestroy rev env (this, w)).2.2) ∧
  (∀ v c x, v ∈ viewers this → controls v = Some c →
     orbits (ngOnDestroy rev env (this, w)).2.2 !! c = Some x →
     controls_disposed x = true ∧
     EvControlsDispose c ∈ trace (ngOnDestroy rev env (this, w)).2.2) ∧
  (window_defined env = true →
     resize_listening (ngOnDestroy rev env (this, w)).2.2 = false ∧
     EvRemoveResizeListener ∈ trace (ngOnDestroy rev env (this, w)).2.2) ∧
  (∀ n, Forall (released MultiAsset) (renderers (page_closed env n).2) ∧
        Forall (λ c, controls_disposed c = true) (orbits (page_closed env n).2) ∧
        pending_frames (page_closed env n).2 = [] ∧
        resize_listening (page_closed env n).2 = false).
Proof.
  split_and!.
  - destruct w as [os ss cs rs ocs pf lf rl tr]. rewrite ngOnDestroy_spec.
    cbn [fst snd pending_frames trace]. intros Hid. rewrite !decide_True by done. split.
    + intros [Hne _]%list_elem_of_filter. done.
    + rewrite !elem_of_app, list_elem_of_singleton. tauto.
  - destruct w as [os ss cs rs ocs pf lf rl tr]. rewrite ngOnDestroy_spec.
    cbn [fst snd renderers trace]. intros v r x Hv Hr Hx. split.
    + destruct (all_released_renderers _ _ _ _ _ Hx) as (_ & _ & _ & Hin).
      apply Hin, list_elem_of_fmap. eauto.
    + rewrite !elem_of_app. right. right. left.
      apply list_elem_of_In, in_flat_map.
      exists v. split; [by apply list_elem_of_In|].
      unfold dispose_calls. rewrite Hr. apply in_or_app. right. by left.
  - destruct w as [os ss cs rs ocs pf lf rl tr]. rewrite ngOnDestroy_spec.
    cbn [fst snd orbits trace]. intros v c x Hv Hc Hx. split.
    + destruct (all_released_controls _ _ _ _ Hx) as (_ & _ & _ & Hin).
      apply Hin, list_elem_of_fmap. eauto.
    + rewrite !elem_of_app. right. right. left.
      apply list_elem_of_In, in_flat_map.
      exists v. split; [by apply list_elem_of_In|].
      unfold dispose_calls. rewrite Hc. apply in_or_app. left. by left.
  - destruct w as [os ss cs rs ocs pf lf rl tr]. rewrite ngOnDestroy_spec.
    cbn [fst snd resize_listening trace]. intros ->. split; [done|].
    rewrite !elem_of_app, list_elem_of_singleton. tauto.
  - intros n. unfold page_closed.
    pose proof (page_running_owns_world env n) as (Hr & Hc & Hp).
    pose proof (page_running_listening env n) as Hl.
    destruct (page_running env n) as [c [os ss cs rs ocs pf lf rl tr]].
    cbn [fst snd renderers orbits pending_frames resize_listening] in *.
    rewrite ngOnDestroy_spec.
    cbn [fst snd renderers orbits pending_frames resize_listening]. split_and!.
    + apply Forall_lookup. intros r x Hx.
      destruct (all_released_renderers _ _ _ _ _ Hx) as (x0 & Hx0 & _ & Hin).
      apply Hin. rewrite Hr. apply list_elem_of_fmap. exists r. split; [done|].
      apply elem_of_seq. apply lookup_lt_Some in Hx0. lia.
    + apply Forall_lookup. intros k x Hx.
      destruct (all_released_controls _ _ _ _ Hx) as (x0 & Hx0 & _ & Hin).
      apply Hin, Hc. by eapply lookup_lt_Some.
    + destruct Hp as [->|[-> Hid]]; [by case_decide|].
      rewrite decide_True by done. by rewrite filter_cons_False, filter_nil by tauto.
    + rewrite Hl. by destruct (window_defined env).
Qed.

Lemma destroy_releases_viewers_witness :
  animateId demo_component ≠ 0 ∧
  demo_viewer ∈ viewers demo_component ∧
  renderer demo_viewer = Some 0 ∧ controls demo_viewer = Some 0 ∧
  window_defined demo_env = true ∧
  (animateId demo_component
     ∉ pending_frames (ngOnDestroy MultiAsset demo_env (demo_component, demo_world)).2.2) ∧
  (∀ x, renderers (ngOnDestroy MultiAsset demo_env (demo_component, demo_world)).2.2 !! 0
          = Some x → released MultiAsset x) ∧
  (∀ x, orbits (ngOnDestroy MultiAsset demo_env (demo_component, demo_world)).2.2 !! 0
          = Some x → controls_disposed x = true) ∧
  resize_listening (ngOnDestroy MultiAsset demo_env (demo_component, demo_world)).2.2
    = false.
Proof.
  destruct (destroy_releases_viewers MultiAsset demo_env demo_component demo_world)
    as (Hframe & Hr & Hc & Hl & _).
  assert (animateId demo_component ≠ 0) as Hid by (cbn; lia).
  assert (demo_viewer ∈ viewers demo_component) as Hin by apply list_elem_of_here.
  split_and!; [exact Hid|exact Hin|reflexivity..| | | |].
  - apply (Hframe Hid).
  - intros x Hx. apply (Hr demo_viewer 0 x Hin eq_refl Hx).
  - intros x Hx. apply (Hc demo_viewer 0 x Hin eq_refl Hx).
  - apply (Hl eq_refl).
Defined.


(** [C4] One call of [animate] on viewers that have their renderers asks
    for exactly one further animation frame and then updates every viewer
    of the array once, in the order of the array: the calls it makes are
    the frame request followed by each viewer's controls update and render
    in turn, and, the viewers' models being distinct, each model is turned
    once. The loop is one for the whole page: after [ngAfterViewInit] and
    any number [n] of frames exactly one frame is pending, [n + 1] frames
    have been requested in all, and each request stands for one render of
    each of the viewers. *)
Theorem animate_updates_each_viewer_once :
  (∀ this w,
     Forall has_renderer (viewers this) →
     ∃ w',
       animate (this, w) = (Ok tt, (set_animateId (S (last_frame w)) this, w')) ∧
       trace w' = trace w ++ EvRequestAnimationFrame (S (last_frame w))
                            :: flat_map tick_calls (viewers this) ∧
       pending_frames w' = pending_frames w ++ [S (last_frame w)] ∧
       (NoDup (model <$> viewers this) →
        ∀ m o, Some m ∈ model <$> viewers this → objects w !! m = Some o →
               objects w' !! m = Some (ThreeViewer.rotate_y o))) ∧
  (∀ env n,
     checkThreeJsLoaded env = Resolved tt →
     length allModelConfigs ≤ length (containers env) →
     length (viewers (page_running env n).1) = length allModelConfigs ∧
     pending_frames (page_running env n).2 = [animateId (page_running env n).1] ∧
     length (filter is_frame_request (trace (page_running env n).2)) = S n ∧
     length (filter is_render (trace (page_running env n).2))
       = S n * length allModelConfigs).
Proof.
  split.
  - intros this [os ss cs rs ocs pf lf rl tr] Hhas. eexists.
    split; [by apply animate_spec|]. cbn [trace pending_frames objects].
    split_and!; [done..|]. intros Hnd m o Hm Ho. by apply ticks_lookup_once.
  - intros env n Hchk Hlen.
    destruct (page_running_loop_running env n Hchk Hlen) as (_ & Hn & _ & Hp & Hf & Hr).
    by rewrite <- Hn.
Qed.

Lemma animate_updates_each_viewer_once_witness :
  Forall has_renderer (viewers demo_component) ∧
  NoDup (model <$> viewers demo_component) ∧
  checkThreeJsLoaded demo_env = Resolved tt ∧
  length allModelConfigs ≤ length (containers demo_env) ∧
  (∃ w', animate (demo_component, demo_world)
           = (Ok tt, (set_animateId 2 demo_component, w')) ∧
         trace w' = [EvRequestAnimationFrame 2; EvControlsUpdate 0;
                     EvRender 0 (Some 0) (Some 0)] ∧
         objects w' !! 1
           = Some (ThreeViewer.rotate_y (shown_clone demo_viewer demo_master 0))) ∧
  pending_frames (page_running demo_env 2).2 = [animateId (page_running demo_env 2).1] ∧
  length (filter is_frame_request (trace (page_running demo_env 2).2)) = 3.
Proof.
  destruct animate_updates_each_viewer_once as (Hcall & Hloop).
  assert (Forall has_renderer (viewers demo_component)) as Hhas
    by (repeat constructor; by exists 0).
  assert (NoDup (model <$> viewers demo_component)) as Hnd
    by (apply NoDup_singleton).
  assert (length allModelConfigs ≤ length (containers demo_env)) as Hlen
    by (vm_compute; lia).
  split_and!; [exact Hhas|exact Hnd|reflexivity|exact Hlen| |apply (Hloop demo_env 2 eq_refl Hlen)..].
  destruct (Hcall demo_component demo_world Hhas) as (w' & Hrun & Htr & _ & Hrot).
  exists w'. split_and!; [exact Hrun|exact Htr|].
  apply (Hrot Hnd 1 _ (list_elem_of_here _ _) eq_refl).
Defined.


End teardown.

(** ** The routing table *)

(** [C7] The routing table has exactly two routes: the empty path shows
    [WebglViewerComponent], the path [about-us] shows [AboutUsComponent]. *)
Theorem routes_are_two :
  length routes = 2 ∧
  routes !! 0 = Some (mkRoute "" WebglViewerComponent) ∧
  routes !! 1 = Some (mkRoute "about-us" AboutUsComponent).
Proof. by repeat split. Qed.

(** * Further properties of the two files *)

(** ** The constructor *)

Section constructing.
Import ThreeViewer.

(** [X1] With [THREE] defined the constructor of either revision returns a
    viewer without a model that holds a new scene, camera and renderer (and
    new controls exactly when [OrbitControls] is defined). The renderer has
    the container's size and its canvas sits in the container; the scene's
    children are the two new lights, in the order ambient, directional, and
    each light has the scene as parent. Everything that existed before is
    still there, unchanged: the stores only grow at their ends. *)
Theorem constructor_only_appends (rev : Revision) (env : Env) (cfg : ModelConfig)
    (el : HTMLElement) (w : World) :
  THREE_defined env = true →
  ∃ v w',
    constructor rev env cfg el w = (Ok v, w') ∧
    config v = cfg ∧ container v = el ∧ model v = None ∧
    renderer v = Some (length (renderers w)) ∧
    camera v = Some (length (cameras w)) ∧
    scene v = Some (length (scenes w)) ∧
    (controls v = if OrbitControls_defined env then Some (length (orbits w)) else None) ∧
    renderers w' = renderers w ++
      [mkRenderer true (clientWidth el, clientHeight el) (Some (el_id el)) false] ∧
    (∃ cam, cameras w' = cameras w ++ [cam] ∧
            aspect cam = Js.div (Js.of_Z (clientWidth el)) (Js.of_Z (clientHeight el))) ∧
    length (orbits w') = length (orbits w) + (if OrbitControls_defined env then 1 else 0) ∧
    (∃ amb dir,
       objects w' = objects w ++ [amb; dir] ∧
       parent amb = Some (length (scenes w)) ∧ parent dir = Some (length (scenes w)) ∧
       scenes w' = scenes w ++
         [mkScene (Some 0xF3F3F3%Z) [length (objects w); S (length (objects w))]]) ∧
    (∀ l, l < length (objects w) → objects w' !! l = objects w !! l) ∧
    (∀ r, r < length (renderers w) → renderers w' !! r = renderers w !! r) ∧
    (∀ s, s < length (scenes w) → scenes w' !! s = scenes w !! s) ∧
    pending_frames w' = pending_frames w ∧ trace w' = trace w.
Proof.
  intros H3. destruct w as [os ss cs rs ocs pf lf rl tr].
  eexists _, _. split; [by apply constructor_spec|]. cbn.
  split_and!; try reflexivity.
  - eexists. split; reflexivity.
  - unfold fresh_controls. rewrite length_app.
    by destruct (OrbitControls_defined env).
  - eexists _, _. split_and!; reflexivity.
  - intros l Hl. by apply lookup_app_l.
  - intros r Hr. by apply lookup_app_l.
  - intros s Hs. by apply lookup_app_l.
Qed.

Lemma constructor_only_appends_witness :
  THREE_defined demo_env = true ∧
  ∃ v w', constructor MultiAsset demo_env demo_config demo_element demo_world = (Ok v, w') ∧
          renderer v = Some 1 ∧ length (renderers w') = 2.
Proof.
  split; [reflexivity|].
  destruct (constructor_only_appends MultiAsset demo_env demo_config demo_element
              demo_world eq_refl)
    as (v & w' & Hrun & _ & _ & _ & Hr & _ & _ & _ & Hrs & _).
  exists v, w'. split_and!; [exact Hrun|exact Hr|by rewrite Hrs].
Defined.



End constructing.

(** ** Waiting for the imported names *)

Section waiting.
Import WebglViewerComponent.

Lemma check_from (envs : nat → Env) (fuel : nat) : ∀ i k,
  check envs fuel i = Some k ↔
  i ≤ k ∧ k ≤ i + fuel ∧ names_ready (envs k) ∧ ∀ j, i ≤ j → j < k → ¬ names_ready (envs j).
Proof.
  unfold names_ready, checkThreeJsLoaded.
  induction fuel as [|fuel IH]; intros i k; cbn [check].
  - destruct (THREE_defined (envs i) && GLTFLoader_defined (envs i)
              && OrbitControls_defined (envs i)) eqn:E.
    + split.
      * intros [= <-]. rewrite E. split_and!; [lia..|done|lia].
      * intros (Hik & Hki & Hk & Hj). f_equal. lia.
    + split; [done|]. intros (Hik & Hki & Hk & _).
      assert (k = i) as -> by lia. by rewrite E in Hk.
  - destruct (THREE_defined (envs i) && GLTFLoader_defined (envs i)
              && OrbitControls_defined (envs i)) eqn:E.
    + split.
      * intros [= <-]. rewrite E. split_and!; [lia..|done|lia].
      * intros (Hik & Hki & Hk & Hj). f_equal.
        destruct (decide (i = k)) as [|Hne]; [done|].
        exfalso. apply (Hj i); [lia..|]. by rewrite E.
    + rewrite IH. split.
      * intros (Hik & Hki & Hk & Hj). split_and!; [lia..|done|].
        intros j Hij Hjk. destruct (decide (j = i)) as [->|Hne]; [by rewrite E|].
        apply Hj; lia.
      * intros (Hik & Hki & Hk & Hj). split_and!; [|lia|done|].
        -- destruct (decide (i = k)) as [->|Hne]; [by rewrite E in Hk|lia].
        -- intros j Hij Hjk. apply Hj; lia.
Qed.

(** [X3] The wait of [checkThreeJsLoaded] ends at the first run of [check]
    that finds the three names defined, that is [50 * k] ms after the call
    when that is run [k], and not before; with names that never change it
    ends at once or never, as the promise of [checkThreeJsLoaded] above
    says. *)
Theorem check_resolves_at_first_ready (envs : nat → Env) (fuel k : nat) :
  (check envs fuel 0 = Some k ↔
     k ≤ fuel ∧ names_ready (envs k) ∧ ∀ j, j < k → ¬ names_ready (envs j)) ∧
  (names_ready (envs k) → (∀ j, j < k → ¬ names_ready (envs j)) →
     check envs k 0 = Some k ∧ waited_ms k = 50 * k) ∧
  (∀ env, check (λ _, env) fuel 0 =
            match checkThreeJsLoaded env with Resolved _ => Some 0 | _ => None end).
Proof.
  split_and!.
  - rewrite check_from. split.
    + intros (_ & ? & ? & Hj). split_and!; [lia|done|]. intros j ?. apply Hj; lia.
    + intros (? & ? & Hj). split_and!; [lia..|done|]. intros j _ ?. by apply Hj.
  - intros Hk Hj. split; [|done]. apply check_from.
    split_and!; [lia..|done|]. intros j _ ?. by apply Hj.
  - intros env. destruct (checkThreeJsLoaded env) as [[]|e|] eqn:E.
    + apply check_from. split_and!; [lia..|done|lia].
    + unfold checkThreeJsLoaded in E. by case_match.
    + destruct (check (λ _, env) fuel 0) as [k'|] eqn:Ec; [|done].
      apply check_from in Ec as (_ & _ & Hr & _). unfold names_ready in Hr. congruence.
Qed.

Lemma check_resolves_at_first_ready_witness :
  names_ready demo_env ∧
  (∀ j, j < 3 →
     ¬ names_ready (if decide (j < 3)
                    then mkEnv true false true true (load_outcome demo_env) []
                    else demo_env)) ∧
  check (λ j, if decide (j < 3)
              then mkEnv true false true true (load_outcome demo_env) []
              else demo_env) 3 0 = Some 3.
Proof.
  assert (∀ j, j < 3 →
     ¬ names_ready (if decide (j < 3)
                    then mkEnv true false true true (load_outcome demo_env) []
                    else demo_env)) as Hj.
  { intros j Hlt. rewrite decide_True by done. discriminate. }
  split_and!; [reflexivity|exact Hj|].
  apply (check_resolves_at_first_ready
           (λ j, if decide (j < 3)
                 then mkEnv true false true true (load_outcome demo_env) []
                 else demo_env) 3 3); [reflexivity|exact Hj].
Defined.

End waiting.

(** ** The map of master models, read back *)

(** [X4] Made from distinct paths, the map of masters gives back for each path
    the model loaded at the same index, and [undefined] for any other
    path. *)
Theorem masterModels_get_after_set (paths : list string) (loaded : list loc) :
  NoDup paths →
  (∀ i p, paths !! i = Some p →
     Map_get (WebglViewerComponent.set_masterModels paths loaded) p = loaded !! i) ∧
  (∀ p, p ∉ paths →
     Map_get (WebglViewerComponent.set_masterModels paths loaded) p = None).
Proof.
  intros Hnd. split.
  - intros i p Hi. by apply set_masterModels_get.
  - intros p Hp. unfold Map_get, WebglViewerComponent.set_masterModels.
    by rewrite masterModels_other.
Qed.

Lemma masterModels_get_after_set_witness :
  NoDup ["/a.glb"; "/b.glb"] ∧
  Map_get (WebglViewerComponent.set_masterModels ["/a.glb"; "/b.glb"] [7; 9]) "/b.glb"
    = Some 9 ∧
  Map_get (WebglViewerComponent.set_masterModels ["/a.glb"; "/b.glb"] [7; 9]) "/c.glb"
    = None.
Proof.
  assert (NoDup ["/a.glb"; "/b.glb"]) as Hnd.
  { apply NoDup_cons. split; [|apply NoDup_singleton].
    intros Hin%list_elem_of_singleton. discriminate. }
  destruct (masterModels_get_after_set ["/a.glb"; "/b.glb"] [7; 9] Hnd) as [Hget Hnone].
  split_and!; [exact Hnd|apply (Hget 1); reflexivity|].
  apply Hnone. intros Hin. repeat (apply elem_of_cons in Hin as [Hin|Hin]; [discriminate|]).
  by apply elem_of_nil in Hin.
Defined.

(** ** The frame is asked for before the viewers are updated *)

Section frame_first.
Import WebglViewerComponent.




End frame_first.

(** ** Resizing *)

Section resizing.
Context {A V : Type} (key : V → option nat) (f : V → A → A).

Lemma altered_lookup_other (vs : list V) : ∀ (l : list A) k,
  Some k ∉ key <$> vs →
  foldl (λ l v, match key v with Some k => alter (f v) k l | None => l end) l vs !! k
  = l !! k.
Proof.
  induction vs as [|v vs IH]; intros l k Hk; [done|].
  cbn in Hk. apply not_elem_of_cons in Hk as [Hv Hk]. cbn [foldl].
  rewrite IH by done. destruct (key v) as [k'|]; [|done].
  apply list_lookup_alter_ne. congruence.
Qed.

Lemma altered_lookup_own (vs : list V) : ∀ (l : list A) v k,
  NoDup (key <$> vs) → v ∈ vs → key v = Some k →
  foldl (λ l v, match key v with Some k => alter (f v) k l | None => l end) l vs !! k
  = f v <$> l !! k.
Proof.
  induction vs as [|v0 vs IH]; intros l v k Hnd Hv Hk; [by apply elem_of_nil in Hv|].
  cbn in Hnd. apply NoDup_cons in Hnd as [Hv0 Hnd]. cbn [foldl].
  apply elem_of_cons in Hv as [->|Hv].
  - rewrite altered_lookup_other by (by rewrite <- Hk).
    rewrite Hk. apply list_lookup_alter_eq.
  - rewrite (IH _ v) by done. f_equal.
    destruct (key v0) as [k0|] eqn:Hk0; [|done].
    apply list_lookup_alter_ne. intros ->. apply Hv0.
    rewrite <- Hk. apply list_elem_of_fmap. eauto.
Qed.

End resizing.

Section resizing_viewers.

Lemma handleResize_spec rev layout v os ss cs rs ocs pf lf rl tr :
  has_camera_and_renderer v →
  handleResize rev layout v (mkWorld os ss cs rs ocs pf lf rl tr) =
  (Ok tt, mkWorld os ss (resized_cameras layout cs v) (resized_renderers layout rs v)
                  ocs pf lf rl tr).
Proof.
  intros [[c Hc] [r Hr]]. unfold handleResize, resized_cameras, resized_renderers.
  rewrite Hc, Hr. destruct rev; cbv beta iota zeta; repeat step; reflexivity.
Qed.

Lemma forEach_handleResize_spec rev layout vs : ∀ os ss cs rs ocs pf lf rl tr,
  Forall has_camera_and_renderer vs →
  forEach (handleResize rev layout) vs (mkWorld os ss cs rs ocs pf lf rl tr) =
  (Ok tt, mkWorld os ss (foldl (resized_cameras layout) cs vs)
                  (foldl (resized_renderers layout) rs vs) ocs pf lf rl tr).
Proof.
  induction vs as [|v vs IH]; intros os ss cs rs ocs pf lf rl tr Hall; [done|].
  apply Forall_cons in Hall as [Hv Hall]. cbn [forEach foldl].
  erewrite bind_ok; [|by apply handleResize_spec]. by apply IH.
Qed.

(** [X6] On viewers that each have a camera and a renderer of their own,
    [onResize] gives every viewer's renderer the size its container has
    now, and every viewer's camera the quotient of that width by that
    height as aspect, changing nothing else of them; a renderer of no
    viewer keeps its size, and objects, scenes, controls and pending frames
    are as before. A container without a layout box (0 by 0) gives its
    camera the aspect NaN. *)
Theorem onResize_fits_each_viewer (rev : Revision) (layout : Layout)
    (this : Component) (w : World) :
  Forall has_camera_and_renderer (viewers this) →
  NoDup (renderer <$> viewers this) →
  NoDup (camera <$> viewers this) →
  ∃ w',
    onResize rev layout (this, w) = (Ok tt, (this, w')) ∧
    objects w' = objects w ∧ scenes w' = scenes w ∧ orbits w' = orbits w ∧
    pending_frames w' = pending_frames w ∧
    (∀ v r x, v ∈ viewers this → renderer v = Some r → renderers w !! r = Some x →
       renderers w' !! r =
         Some (mkRenderer (antialias x) (layout (el_id (container v)))
                          (canvas_parent x) (renderer_disposed x))) ∧
    (∀ v c x, v ∈ viewers this → camera v = Some c → cameras w !! c = Some x →
       cameras w' !! c =
         Some (mkCamera (fov x)
                 (Js.div (Js.of_Z (layout (el_id (container v))).1)
                         (Js.of_Z (layout (el_id (container v))).2))
                 (near x) (far x) (camera_z x))) ∧
    (∀ v c x, v ∈ viewers this → camera v = Some c → cameras w' !! c = Some x →
       layout (el_id (container v)) = (0, 0)%Z → aspect x = S754_nan) ∧
    (∀ r, Some r ∉ renderer <$> viewers this → renderers w' !! r = renderers w !! r).
Proof.
  intros Hall Hr Hc. destruct w as [os ss cs rs ocs pf lf rl tr].
  eexists. unfold onResize. rewrite bind_this_get.
  split; [erewrite run_world; [reflexivity|by apply forEach_handleResize_spec]|].
  cbn [objects scenes orbits pending_frames renderers cameras].
  split_and!; try reflexivity.
  - intros v r x Hv Hvr Hx.
    rewrite (altered_lookup_own renderer
               (λ v, with_size ((layout (el_id (container v))).1,
                                (layout (el_id (container v))).2)) _ _ v r) by done.
    rewrite Hx. cbn. unfold with_size. by rewrite <- surjective_pairing.
  - intros v c x Hv Hvc Hx.
    rewrite (altered_lookup_own camera
               (λ v, with_aspect (Js.div (Js.of_Z (layout (el_id (container v))).1)
                                         (Js.of_Z (layout (el_id (container v))).2)))
               _ _ v c) by done.
    by rewrite Hx.
  - intros v c x Hv Hvc Hx Hzero.
    rewrite (altered_lookup_own camera
               (λ v, with_aspect (Js.div (Js.of_Z (layout (el_id (container v))).1)
                                         (Js.of_Z (layout (el_id (container v))).2)))
               _ _ v c) in Hx by done.
    rewrite Hzero in Hx. destruct (cs !! c); [|done]. by injection Hx as <-.
  - intros r Hr'.
    by apply (altered_lookup_other renderer
                (λ v, with_size ((layout (el_id (container v))).1,
                                 (layout (el_id (container v))).2))).
Qed.

Lemma onResize_fits_each_viewer_witness :
  Forall has_camera_and_renderer (viewers demo_component) ∧
  NoDup (renderer <$> viewers demo_component) ∧
  NoDup (camera <$> viewers demo_component) ∧
  ∃ w', onResize MultiAsset (λ _, (640, 480)%Z) (demo_component, demo_world)
          = (Ok tt, (demo_component, w')) ∧
        renderers w' !! 0 = Some (mkRenderer true (640, 480)%Z (Some 0) false).
Proof.
  assert (Forall has_camera_and_renderer (viewers demo_component)) as Hall
    by (repeat constructor; by exists 0).
  assert (NoDup (renderer <$> viewers demo_component)) as Hr by apply NoDup_singleton.
  assert (NoDup (camera <$> viewers demo_component)) as Hc by apply NoDup_singleton.
  split_and!; [exact Hall|exact Hr|exact Hc|].
  destruct (onResize_fits_each_viewer MultiAsset (λ _, (640, 480)%Z)
              demo_component demo_world Hall Hr Hc)
    as (w' & Hrun & _ & _ & _ & _ & Hsize & _).
  exists w'. split; [exact Hrun|].
  apply (Hsize demo_viewer 0 (fresh_renderer demo_element));
    [apply list_elem_of_here|reflexivity..].
Defined.

End resizing_viewers.

(** ** Building viewers, for either revision *)

Section built_viewers.
Context (env : Env) (els : list HTMLElement) (os0 : list Object3D).
Context (master : ModelConfig → option (loc * Object3D)).
Context (cb : ModelConfig → nat → M World ThreeViewer).

(** What one run of the [map] callback does, when the container is there
    and the master of the configuration is in the store *)
Hypothesis cb_spec : ∀ cfg i el m o os ss cs rs ocs pf lf rl tr,
  els !! i = Some el → master cfg = Some (m, o) → os !! m = Some o →
  cb cfg i (mkWorld os ss cs rs ocs pf lf rl tr) =
  (Ok (built_viewer env cfg el (length os) (length ss) (length cs) (length rs) (length ocs)),
   mkWorld (os ++ [ambient_light (length ss); directional_light (length ss);
                   mkObject (kind o) (cfg_pos cfg) (rotation o) (cfg_scale cfg)
                            (Some (length ss))])
           (ss ++ [mkScene (Some 0xF3F3F3%Z)
                           [length os; S (length os); S (S (length os))]])
           (cs ++ [fresh_camera el]) (rs ++ [fresh_renderer el])
           (ocs ++ fresh_controls env (length cs) (length rs)) pf lf rl tr).

Lemma built_viewers_spec cfgs : ∀ i ex ss cs rs ocs pf lf rl tr,
  Forall (λ cfg, ∃ m o, master cfg = Some (m, o) ∧ os0 !! m = Some o) cfgs →
  i + length cfgs ≤ length els →
  ∃ vs os' ss' cs' ocs',
    array_map_from i cb cfgs (mkWorld (os0 ++ ex) ss cs rs ocs pf lf rl tr)
    = (Ok vs, mkWorld (os0 ++ ex ++ os') (ss ++ ss') (cs ++ cs')
                      (rs ++ (fresh_renderer <$> take (length cfgs) (drop i els)))
                      (ocs ++ ocs') pf lf rl tr) ∧
    config <$> vs = cfgs ∧
    container <$> vs = take (length cfgs) (drop i els) ∧
    renderer <$> vs = Some <$> seq (length rs) (length cfgs) ∧
    camera <$> vs = Some <$> seq (length cs) (length cfgs) ∧
    length cs' = length cfgs ∧
    NoDup (model <$> vs) ∧
    Forall (λ v, ∃ c m o s,
              model v = Some c ∧ length (os0 ++ ex) ≤ c ∧ scene v = Some s ∧
              master (config v) = Some (m, o) ∧
              (os0 ++ ex ++ os') !! c = Some (shown_clone v o s)) vs.
Proof.
  induction cfgs as [|cfg cfgs IH]; intros i ex ss cs rs ocs pf lf rl tr Hm Hlen.
  - exists [], [], [], [], []. rewrite !app_nil_r. cbn.
    split_and!; try done. apply NoDup_nil_2.
  - apply Forall_cons in Hm as [(m & o & Hmc & Ho) Hm]. cbn [length] in Hlen.
    destruct (lookup_lt_is_Some_2 els i) as [el Hel]; [lia|].
    cbn [array_map_from].
    erewrite bind_ok; [|by eapply cb_spec; [..|apply lookup_app_l_Some]].
    rewrite <- (app_assoc os0 ex).
    edestruct (IH (S i)) as (vs & os' & ss' & cs' & ocs' &
                             Hrun & Hcfg & Hcont & Hr & Hc & Hcl & Hnd & Hsh); [done|lia|].
    erewrite bind_ok; [|exact Hrun]. rewrite run_ret.
    rewrite <- !app_assoc. rewrite <- !app_assoc in Hsh.
    rewrite (drop_S els el i Hel). cbn [length take fmap list_fmap app].
    eexists _, _, _, _, _. split; [reflexivity|].
    rewrite !length_app in Hr, Hc. cbn [length fmap list_fmap] in *.
    split_and!.
    + by rewrite Hcfg.
    + by rewrite Hcont.
    + cbn. by rewrite Hr, Nat.add_1_r.
    + cbn. by rewrite Hc, Nat.add_1_r.
    + cbn. lia.
    + apply NoDup_cons. split; [|done].
      intros (v & Hv & Hin)%list_elem_of_fmap.
      rewrite Forall_forall in Hsh. destruct (Hsh v Hin) as (c & ? & ? & ? & Hc' & Hge & _).
      cbn in Hv. rewrite Hc' in Hv. simplify_eq. rewrite !length_app in Hge.
      cbn in Hge. lia.
    + apply Forall_cons. split.
      * exists (length (os0 ++ ex) + 2), m, o, (length ss). cbn.
        split_and!; try done; [lia|].
        rewrite app_assoc, lookup_app_r by lia.
        replace (length (os0 ++ ex) + 2 - length (os0 ++ ex)) with 2 by lia. done.
      * eapply Forall_impl; [exact Hsh|]. intros v (c & m' & o' & s' & ? & Hc' & ?).
        exists c, m', o', s'. split_and!; try tauto.
        revert Hc'. rewrite !length_app. cbn. lia.
Qed.

(** With too few containers the callback fails at the first index that
    has none, after it has built a viewer for every container. *)
Hypothesis cb_fail : ∀ cfg i w,
  els !! i = None → ∃ e, cb cfg i w = (Throw e, w).

Lemma built_viewers_short cfgs : ∀ i ex ss cs rs ocs pf lf rl tr,
  Forall (λ cfg, ∃ m o, master cfg = Some (m, o) ∧ os0 !! m = Some o) cfgs →
  i ≤ length els → length els < i + length cfgs →
  ∃ e os' ss' cs' ocs',
    array_map_from i cb cfgs (mkWorld (os0 ++ ex) ss cs rs ocs pf lf rl tr)
    = (Throw e, mkWorld (os0 ++ ex ++ os') (ss ++ ss') (cs ++ cs')
                        (rs ++ (fresh_renderer <$> drop i els))
                        (ocs ++ ocs') pf lf rl tr).
Proof.
  induction cfgs as [|cfg cfgs IH]; intros i ex ss cs rs ocs pf lf rl tr Hm Hi Hlen.
  - cbn in Hlen. lia.
  - apply Forall_cons in Hm as [(m & o & Hmc & Ho) Hm]. cbn [length] in Hlen.
    cbn [array_map_from]. destruct (els !! i) as [el|] eqn:Hel.
    + erewrite bind_ok; [|by eapply cb_spec; [..|apply lookup_app_l_Some]].
      rewrite <- (app_assoc os0 ex).
      apply lookup_lt_Some in Hel as Hlt.
      edestruct (IH (S i)) as (e & os' & ss' & cs' & ocs' & Hrun); [done|lia|lia|].
      unfold mbind at 1, M_bind at 1. rewrite Hrun.
      rewrite <- !app_assoc. rewrite (drop_S els el i Hel). cbn [fmap list_fmap app].
      eexists _, _, _, _, _. reflexivity.
    + destruct (cb_fail cfg i (mkWorld (os0 ++ ex) ss cs rs ocs pf lf rl tr) Hel)
        as [e He].
      unfold mbind, M_bind. rewrite He.
      exists e, [], [], [], []. apply lookup_ge_None_1 in Hel.
      rewrite drop_ge by done. by rewrite !app_nil_r.
Qed.

End built_viewers.

(** ** The component of the single-asset revision *)

Section single_asset.
Import WebglViewerComponent.

Lemma single_init_viewer_spec env m els cfg i el o os ss cs rs ocs pf lf rl tr :
  THREE_defined env = true →
  els !! i = Some el →
  os !! m = Some o →
  SingleAssetComponent.init_viewer env m els cfg i (mkWorld os ss cs rs ocs pf lf rl tr) =
  (Ok (built_viewer env cfg el (length os) (length ss) (length cs) (length rs) (length ocs)),
   mkWorld (os ++ [ambient_light (length ss); directional_light (length ss);
                   mkObject (kind o) (cfg_pos cfg) (rotation o) (cfg_scale cfg)
                            (Some (length ss))])
           (ss ++ [mkScene (Some 0xF3F3F3%Z)
                           [length os; S (length os); S (S (length os))]])
           (cs ++ [fresh_camera el]) (rs ++ [fresh_renderer el])
           (ocs ++ fresh_controls env (length cs) (length rs)) pf lf rl tr).
Proof.
  intros H3 Hel Ho. unfold SingleAssetComponent.init_viewer. rewrite Hel.
  erewrite bind_ok; [|by apply constructor_spec].
  erewrite addModel_spec; [|reflexivity|by apply lookup_app_l_Some].
  rewrite alter_snoc, <- app_assoc, length_app. cbn.
  unfold built_viewer, with_model, shown_clone. cbn.
  by rewrite (Nat.add_comm (length os) 2).
Qed.

Lemma single_cb_spec env n mo els :
  THREE_defined env = true →
  ∀ cfg i el m o os ss cs rs ocs pf lf rl tr,
    els !! i = Some el → Some (n, mo) = Some (m, o) → os !! m = Some o →
    SingleAssetComponent.init_viewer env n els cfg i (mkWorld os ss cs rs ocs pf lf rl tr) =
    (Ok (built_viewer env cfg el (length os) (length ss) (length cs) (length rs)
                      (length ocs)),
     mkWorld (os ++ [ambient_light (length ss); directional_light (length ss);
                     mkObject (kind o) (cfg_pos cfg) (rotation o) (cfg_scale cfg)
                              (Some (length ss))])
             (ss ++ [mkScene (Some 0xF3F3F3%Z)
                             [length os; S (length os); S (S (length os))]])
             (cs ++ [fresh_camera el]) (rs ++ [fresh_renderer el])
             (ocs ++ fresh_controls env (length cs) (length rs)) pf lf rl tr).
Proof.
  intros H3 cfg i el m o os ss cs rs ocs pf lf rl tr Hel [= <- <-] Ho.
  by apply single_init_viewer_spec.
Qed.

Lemma single_init_viewer_fail env m els cfg i w :
  els !! i = None → ∃ e, SingleAssetComponent.init_viewer env m els cfg i w = (Throw e, w).
Proof.
  intros Hel. unfold SingleAssetComponent.init_viewer. rewrite Hel. eexists. reflexivity.
Qed.


Lemma loadMasterModel_spec env os ss cs rs ocs pf lf rl tr :
  names_ready env →
  loadMasterModel env (mkWorld os ss cs rs ocs pf lf rl tr) =
  (Resolved (length os),
   mkWorld (os ++ [single_master env]) ss cs rs ocs pf lf rl (tr ++ single_load_trace env)).
Proof.
  intros (H3 & HL & _)%imports_defined. unfold loadMasterModel.
  by rewrite load_promise_spec.
Qed.


Lemma bind_world_fail {A B} (c : M World A) (k : A → M CS B) this w e w1 :
  c w = (Throw e, w1) → (world c ≫= k) (this, w) = (Throw e, (this, w1)).
Proof. intros Hc. unfold mbind, M_bind, world. cbn. by rewrite Hc. Qed.

Lemma single_load_trace_loads env :
  filter is_load (single_load_trace env) = [EvLoad GLB_MODEL_PATH].
Proof. unfold single_load_trace, load_calls. by destruct (load_outcome env _). Qed.

Lemma single_load_trace_frames env :
  filter is_frame_request (single_load_trace env) = [].
Proof. unfold single_load_trace, load_calls. by destruct (load_outcome env _). Qed.



(** [X8] With fewer containers than entries the single-asset revision has no
    guard: with none it returns before loading; with some, the [map]
    callback fails at the first entry without a container, after a renderer
    has been created and put on the page for every container. Nothing
    catches the failure: the component is left as it was, no frame is
    requested, and the renderers made stay live. A component without
    viewers does not release them in [ngOnDestroy]. *)
Theorem single_asset_too_few_containers (env : Env) (this : Component) (w : World) :
  names_ready env →
  length (containers env) < length SingleAssetComponent.modelData →
  (length (containers env) = 0 →
     SingleAssetComponent.ngAfterViewInit env (this, w) = (Ok tt, (this, w))) ∧
  (0 < length (containers env) →
     ∃ e w',
       SingleAssetComponent.ngAfterViewInit env (this, w) = (Throw e, (this, w')) ∧
       renderers w' = renderers w ++ (fresh_renderer <$> containers env) ∧
       Forall live (fresh_renderer <$> containers env) ∧
       pending_frames w' = pending_frames w ∧
       filter is_frame_request (trace w') = filter is_frame_request (trace w) ∧
       filter is_load (trace w') = filter is_load (trace w) ++ [EvLoad GLB_MODEL_PATH] ∧
       (viewers this = [] →
          renderers (ngOnDestroy SingleAsset env (this, w')).2.2 = renderers w')).
Proof.
  intros Hchk Hlen. destruct (imports_defined _ Hchk) as (H3 & HL & HO). split.
  - intros Hz. unfold SingleAssetComponent.ngAfterViewInit. rewrite Hchk.
    by rewrite decide_True.
  - intros Hpos. destruct w as [os ss cs rs ocs pf lf rl tr].
    destruct (built_viewers_short env (containers env) (os ++ [single_master env])
                (λ _, Some (length os, single_master env))
                (SingleAssetComponent.init_viewer env (length os) (containers env))
                (single_cb_spec env (length os) (single_master env) (containers env) H3)
                (λ cfg i w Hel, single_init_viewer_fail env (length os) (containers env)
                                  cfg i w Hel)
                SingleAssetComponent.modelData 0 [] ss cs rs ocs pf lf rl
                (tr ++ single_load_trace env))
      as (e & os' & ss' & cs' & ocs' & Hrun).
    { apply Forall_forall. intros cfg _. exists (length os), (single_master env).
      split; [done|]. apply lookup_snoc. }
    { lia. }
    { lia. }
    rewrite !app_nil_r in Hrun. cbn [app drop] in Hrun.
    eexists e, _. split.
    { unfold SingleAssetComponent.ngAfterViewInit. rewrite Hchk. cbv beta iota.
      rewrite decide_False by lia.
      erewrite bind_world;
        [|unfold alloc; rewrite loadMasterModel_spec by done; reflexivity].
      cbv beta iota.
      erewrite bind_world_fail; [reflexivity|exact Hrun]. }
    cbn [renderers pending_frames trace]. split_and!; try reflexivity.
    + apply Forall_fmap, Forall_forall. intros el _. split; [done|by eexists].
    + by rewrite filter_app, single_load_trace_frames, app_nil_r.
    + by rewrite filter_app, single_load_trace_loads.
    + intros Hvs. rewrite ngOnDestroy_spec, Hvs. reflexivity.
Qed.

Lemma single_asset_too_few_containers_witness :
  names_ready (mkEnv true true true true (load_outcome demo_env) [demo_element]) ∧
  length (containers (mkEnv true true true true (load_outcome demo_env) [demo_element]))
    < length SingleAssetComponent.modelData ∧
  0 < length (containers (mkEnv true true true true (load_outcome demo_env)
                                [demo_element])) ∧
  ∃ e w',
    SingleAssetComponent.ngAfterViewInit
      (mkEnv true true true true (load_outcome demo_env) [demo_element])
      (new_component, empty_world) = (Throw e, (new_component, w')) ∧
    renderers w' = [fresh_renderer demo_element].
Proof.
  assert (length (containers (mkEnv true true true true (load_outcome demo_env)
                                    [demo_element]))
          < length SingleAssetComponent.modelData) as Hlen by (vm_compute; lia).
  assert (0 < length (containers (mkEnv true true true true (load_outcome demo_env)
                                        [demo_element]))) as Hpos by (cbn; lia).
  split_and!; [reflexivity|exact Hlen|exact Hpos|].
  destruct (single_asset_too_few_containers
              (mkEnv true true true true (load_outcome demo_env) [demo_element])
              new_component empty_world eq_refl Hlen) as [_ Hsome].
  destruct (Hsome Hpos) as (e & w' & Hrun & Hrs & _).
  exists e, w'. split; [exact Hrun|exact Hrs].
Defined.

End single_asset.

(** ** The page of the multi-asset revision, frame after frame *)

Section page_life.
Import WebglViewerComponent.

Lemma multi_cb_spec env mm els os0 :
  THREE_defined env = true →
  ∀ cfg i el m o os ss cs rs ocs pf lf rl tr,
    els !! i = Some el → master_of mm os0 cfg = Some (m, o) → os !! m = Some o →
    init_viewer env mm els cfg i (mkWorld os ss cs rs ocs pf lf rl tr) =
    (Ok (built_viewer env cfg el (length os) (length ss) (length cs) (length rs)
                      (length ocs)),
     mkWorld (os ++ [ambient_light (length ss); directional_light (length ss);
                     mkObject (kind o) (cfg_pos cfg) (rotation o) (cfg_scale cfg)
                              (Some (length ss))])
             (ss ++ [mkScene (Some 0xF3F3F3%Z)
                             [length os; S (length os); S (S (length os))]])
             (cs ++ [fresh_camera el]) (rs ++ [fresh_renderer el])
             (ocs ++ fresh_controls env (length cs) (length rs)) pf lf rl tr).
Proof.
  intros H3 cfg i el m o os ss cs rs ocs pf lf rl tr Hel Hm Ho.
  apply (init_viewer_spec env mm els cfg i el m o); [done..| |done].
  unfold master_of in Hm. destruct (Map_get mm (modelPath cfg)) as [m'|]; [|done].
  destruct (os0 !! m'); [|done]. cbn in Hm. congruence.
Qed.

Lemma allModelConfigs_length : length allModelConfigs = 16.
Proof. reflexivity. Qed.

(** The page once [ngAfterViewInit] has run, with the imported names
    defined and a container for every configuration: viewer [k] has
    container, renderer and camera [k], and a model of its own. *)
Lemma page_opened_explicit env :
  names_ready env →
  length allModelConfigs ≤ length (containers env) →
  ∃ vs os' ss' cs' ocs' tr,
    page_opened env =
      (mkComponent vs 1 true,
       mkWorld (ticks vs (masters env ++ os')) ss' cs'
               (fresh_renderer <$> take 16 (containers env)) ocs' [1] 1
               (window_defined env) tr) ∧
    config <$> vs = allModelConfigs ∧
    container <$> vs = take 16 (containers env) ∧
    renderer <$> vs = Some <$> seq 0 16 ∧
    camera <$> vs = Some <$> seq 0 16 ∧
    length cs' = 16 ∧
    NoDup (model <$> vs) ∧
    Forall (λ v, ∃ c s,
              model v = Some c ∧ length (masters env) ≤ c ∧ scene v = Some s ∧
              (masters env ++ os') !! c
                = Some (shown_clone v (loaded_object env 1 (modelPath (config v))) s)) vs.
Proof.
  intros Hchk Hlen. destruct (imports_defined _ Hchk) as (H3 & HL & HO).
  rewrite allModelConfigs_length in Hlen.
  destruct (built_viewers_spec env (containers env) (masters env)
              (master_of (masterModels_at 0) (masters env))
              (init_viewer env (masterModels_at 0) (containers env))
              (multi_cb_spec env (masterModels_at 0) (containers env) (masters env) H3)
              allModelConfigs 0 [] [] [] [] [] [] 0 (window_defined env)
              ((if window_defined env then [EvAddResizeListener] else [])
                 ++ load_trace env))
    as (vs & os' & ss' & cs' & ocs' & Hrun & Hcfg & Hcont & Hr & Hc & Hcl & Hnd & Hsh).
  { apply Forall_forall. intros cfg Hin.
    destruct (masterModels_cover env [] cfg Hin) as (i & _ & Hget & Hm).
    cbn [length app Nat.add] in Hget, Hm.
    exists i, (loaded_object env 1 (modelPath cfg)). split; [|done].
    unfold master_of. by rewrite Hget, Hm. }
  { rewrite allModelConfigs_length. cbn. lia. }
  rewrite allModelConfigs_length in Hrun, Hcont, Hr, Hc, Hcl.
  rewrite !app_nil_r in Hrun, Hsh. cbn [app drop length] in Hrun, Hsh, Hr, Hc.
  exists vs, os', ss', cs', ocs'. eexists. split; [|split_and!; try done].
  - unfold page_opened. rewrite afterNextRender_callback_spec. cbn [snd].
    apply (f_equal snd
      (x := ngAfterViewInit env (new_component, _))
      (y := (Ok tt, _))).
    apply try_catch_ok. rewrite Hchk. cbv beta iota.
    erewrite bind_world;
      [|unfold alloc; rewrite load_each_spec by done; reflexivity].
    rewrite Promise_all_resolved. cbv beta iota zeta.
    rewrite decide_False by (rewrite allModelConfigs_length; lia).
    erewrite bind_world; [|exact Hrun].
    rewrite !bind_this_modify.
    erewrite bind_world; [|rewrite run_modify; wsimpl; reflexivity].
    rewrite animate_spec by (by eapply numbered_renderers_present).
    unfold set_animateId, set_isLoaded, set_viewers; cbn [viewers animateId isLoaded].
    reflexivity.
  - apply Forall_forall. intros v Hv. rewrite Forall_forall in Hsh.
    destruct (Hsh v Hv) as (c & m & o & s & Hc' & Hge & Hs & Hm & Hcl').
    exists c, s. split_and!; [done..|].
    assert (config v ∈ allModelConfigs) as Hin.
    { rewrite <- Hcfg. apply list_elem_of_fmap. eauto. }
    destruct (masterModels_cover env [] (config v) Hin) as (i & _ & Hget & Hmi).
    cbn [length app Nat.add] in Hget, Hmi.
    unfold master_of in Hm. rewrite Hget, Hmi in Hm. cbn in Hm. by simplify_eq.
Qed.

Lemma run_frames_S n s : run_frames (S n) s = (run_frame (run_frames n s)).2.
Proof. reflexivity. Qed.

Lemma run_frames_explicit vs ss cs rs ocs rl : ∀ n id os tr,
  Forall has_renderer vs →
  ∃ tr',
    run_frames n (mkComponent vs id true, mkWorld os ss cs rs ocs [id] id rl tr) =
    (mkComponent vs (id + n) true,
     mkWorld (Nat.iter n (ticks vs) os) ss cs rs ocs [id + n] (id + n) rl tr').
Proof.
  induction n as [|n IH]; intros id os tr Hhas.
  - exists tr. by rewrite Nat.add_0_r.
  - destruct (IH id os tr Hhas) as (tr' & Hn).
    rewrite run_frames_S, Hn.
    unfold run_frame. cbn [fst snd pending_frames].
    rewrite set_frames_mk, animate_spec by done.
    eexists. cbn [snd]. unfold set_animateId. cbn [viewers isLoaded app].
    by rewrite <- Nat.add_succ_r.
Qed.





Lemma page_closed_no_frame env n : pending_frames (page_closed env n).2 = [].
Proof.
  unfold page_closed.
  pose proof (page_running_owns_world env n) as (_ & _ & Hp).
  destruct (page_running env n) as [c [os ss cs rs ocs pf lf rl tr]].
  cbn [fst snd pending_frames] in *. rewrite ngOnDestroy_spec. cbn [snd pending_frames].
  destruct Hp as [->|[-> Hid]]; [by case_decide|].
  rewrite decide_True by done. by rewrite filter_cons_False, filter_nil by tauto.
Qed.

(** [X10] After [ngOnDestroy] the loop is over: however many frames the browser
    would still fire, none runs [animate], so nothing is updated or
    rendered again and no frame is requested again. *)
Theorem no_frame_after_destroy (env : Env) (n m : nat) :
  run_frames m (page_closed env n) = page_closed env n.
Proof.
  induction m as [|m IH]; [done|].
  rewrite run_frames_S, IH. unfold run_frame.
  by rewrite page_closed_no_frame.
Qed.

(** [X11] A resize at any time in the life of the page never fails and gives the
    renderer of viewer [k] the size its own container, the [k]-th of the
    template, has at that time; the renderer stays live. *)
Theorem resize_on_running_page (env : Env) (n : nat) (layout : Layout) :
  names_ready env →
  length allModelConfigs ≤ length (containers env) →
  ∃ w',
    onResize MultiAsset layout (page_running env n) = (Ok tt, ((page_running env n).1, w')) ∧
    objects w' = objects (page_running env n).2 ∧
    pending_frames w' = pending_frames (page_running env n).2 ∧
    length (renderers w') = 16 ∧
    (∀ k el, k < 16 → containers env !! k = Some el →
       renderers w' !! k =
         Some (mkRenderer true (layout (el_id el)) (Some (el_id el)) false)).
Proof.
  intros Hchk Hlen.
  destruct (page_opened_explicit env Hchk Hlen)
    as (vs & os' & ss' & cs' & ocs' & tr & Hopen & _ & Hcont & Hr & Hc & Hcl & _ & _).
  pose proof (numbered_renderers_present _ _ Hr) as Hhas.
  destruct (run_frames_explicit vs ss' cs' (fresh_renderer <$> take 16 (containers env))
              ocs' (window_defined env) n 1 (ticks vs (masters env ++ os')) tr Hhas)
    as (tr' & Hrun).
  unfold page_running. rewrite Hopen, Hrun. cbn [fst snd].
  rewrite allModelConfigs_length in Hlen.
  assert (Forall has_camera_and_renderer vs) as Hall.
  { apply Forall_forall. intros v Hv. split.
    - assert (camera v ∈ camera <$> vs) as Hin by (apply list_elem_of_fmap; eauto).
      rewrite Hc in Hin. apply list_elem_of_fmap in Hin as (c & Heq & _). by exists c.
    - rewrite Forall_forall in Hhas. by apply Hhas. }
  assert (NoDup (renderer <$> vs)) as Hnd.
  { rewrite Hr. apply NoDup_fmap; [apply _|apply NoDup_seq]. }
  eexists. unfold onResize. rewrite bind_this_get. cbn [viewers].
  split; [erewrite run_world; [reflexivity|by apply forEach_handleResize_spec]|].
  cbn [objects pending_frames renderers]. split_and!; try reflexivity.
  - assert (∀ (us : list ThreeViewer) (rs : list WebGLRenderer),
              length (foldl (resized_renderers layout) rs us) = length rs) as Hl.
    { induction us as [|u us IH]; intros rs; [done|]. cbn [foldl]. rewrite IH.
      unfold resized_renderers. destruct (renderer u); [apply length_alter|done]. }
    rewrite Hl, length_fmap, length_take. lia.
  - intros k el Hk Hel.
    assert (length vs = 16) as Hlv.
    { rewrite <- (length_fmap renderer), Hr, length_fmap, length_seq. done. }
    destruct (lookup_lt_is_Some_2 vs k) as [v Hv]; [lia|].
    assert (renderer v = Some k) as Hvr.
    { assert ((renderer <$> vs) !! k = (Some <$> seq 0 16) !! k) as Hk'
        by (by rewrite Hr).
      rewrite !list_lookup_fmap, Hv, lookup_seq_lt in Hk' by done.
      by injection Hk'. }
    assert (container v = el) as Hve.
    { assert ((container <$> vs) !! k = take 16 (containers env) !! k) as Hk'
        by (by rewrite Hcont).
      rewrite list_lookup_fmap, Hv, lookup_take_lt, Hel in Hk' by done.
      by injection Hk'. }
    unfold resized_renderers.
    rewrite (altered_lookup_own renderer
               (λ v, with_size ((layout (el_id (container v))).1,
                                (layout (el_id (container v))).2)) _ _ v k);
      [|done|by eapply list_elem_of_lookup_2|done].
    rewrite list_lookup_fmap, lookup_take_lt, Hel, Hve by done. cbn.
    unfold with_size, fresh_renderer. cbn. by rewrite <- surjective_pairing.
Qed.

Lemma resize_on_running_page_witness :
  names_ready demo_env ∧
  length allModelConfigs ≤ length (containers demo_env) ∧
  ∃ w', onResize MultiAsset (λ _, (640, 480)%Z) (page_running demo_env 2)
          = (Ok tt, ((page_running demo_env 2).1, w')) ∧
        renderers w' !! 5 = Some (mkRenderer true (640, 480)%Z (Some 5) false).
Proof.
  assert (length allModelConfigs ≤ length (containers demo_env)) as Hlen
    by (vm_compute; lia).
  split_and!; [reflexivity|exact Hlen|].
  destruct (resize_on_running_page demo_env 2 (λ _, (640, 480)%Z) eq_refl Hlen)
    as (w' & Hrun & _ & _ & _ & Hsize).
  exists w'. split; [exact Hrun|].
  apply (Hsize 5 (mkElement 5 300 200)); [lia|reflexivity].
Defined.

End page_life.
